(** * Filesystem blob-store backend (pkg/simplecontent/storage/fs/fs.go)

    A shallow embedding of the filesystem backend of simple-content and
    the properties of its specification.

    The Go code talks to the operating system through [os] and
    [path/filepath].  Both are modelled here:
    - [filepath.Clean], [filepath.Join] and [filepath.Dir] work on path
      strings, exactly as on a Unix system (separator [/], no volume names);
    - the file system is a finite map from absolute locations (the list of
      directory names from the root) to nodes; a path is resolved against
      it component by component, the way the kernel does, so the
      difference between "no such file" (ENOENT) and "a component is not a
      directory" (ENOTDIR) is kept.
    Symbolic links, permissions, modification times and concurrent callers
    are outside the model: the mutex of the backend and the [ctx] argument
    of every method, which the code never reads, have no counterpart.  So
    are the limits the system sets on a path: the model takes every
    element other than the empty one, [.] and [..] as a name.  What Go and
    Linux accept is [valid_path]; where a statement promises that a path
    nothing was stored under yet can be written, or that it fails in a
    particular way, it is made for paths that satisfy it. *)

From stdpp Require Import gmap strings list fin_maps pretty.
From Stdlib Require Import ZArith Strings.Byte Strings.Ascii.

Open Scope Z_scope.

Set Default Proof Using "Type".

(** ** Results and errors *)

Inductive result (E A : Type) : Type :=
  | Ok (a : A)
  | Err (e : E).
Arguments Ok {E A} a.
Arguments Err {E A} e.

Global Instance result_bind {E} : MBind (result E) := λ A B k r,
  match r with
  | Ok a => k a
  | Err e => Err e
  end.

(** Error numbers of the system calls the backend makes. *)
Inductive errno : Type :=
  | ENOENT | ENOTDIR | EISDIR | ENOTEMPTY | EINVAL | EBUSY | EEXIST.

(** Go [error] values: [errors.New msg], [fmt.Errorf "msg: %w" err], the
    error of a failed system call, [io.EOF], an error handed in from outside
    (a failing [io.Reader]), and the errors of the signer. *)
Inductive error : Type :=
  | errors_New (msg : string)
  | fmt_Errorf (msg : string) (cause : error)
  | PathError (e : errno)
  | EOF
  | ReadError (msg : string)
  | ErrExpired
  | ErrInvalidSignature
  | ErrSigningNotConfigured
  | ErrInvalidExpiration.

(** [os.IsNotExist]: it does not unwrap [fmt.Errorf] chains. *)
Definition IsNotExist (e : error) : bool :=
  match e with
  | PathError ENOENT => true
  | _ => false
  end.

(** ** Package path/filepath (Unix) *)

Definition isSep (c : ascii) : bool := bool_decide (c = "/"%char).

(** [strings.Split s "/"]. *)
Fixpoint segments (s : string) : list string :=
  match s with
  | EmptyString => [""]
  | String c rest =>
      if isSep c then "" :: segments rest
      else match segments rest with
           | seg :: segs => String c seg :: segs
           | [] => [String c ""]
           end
  end.

(** [strings.Join segs "/"]. *)
Fixpoint join_segments (segs : list string) : string :=
  match segs with
  | [] => ""
  | [seg] => seg
  | seg :: rest => seg +:+ "/" +:+ join_segments rest
  end.

Definition rooted (path : string) : bool :=
  match path with
  | String c _ => isSep c
  | EmptyString => false
  end.

(** Elements that name no step: the empty element and [.]. *)
Definition is_skip (seg : string) : bool :=
  bool_decide (seg = "") || bool_decide (seg = ".").

Definition is_dotdot (seg : string) : bool := bool_decide (seg = "..").

(** The element loop of [filepath.Clean]; [out] is the output so far, last
    element first.  A [..] removes the element before it, is dropped at the
    root of a rooted path, and is kept at the front of a relative one. *)
Fixpoint clean_segments (is_rooted : bool) (out segs : list string) : list string :=
  match segs with
  | [] => out
  | seg :: rest =>
      if is_skip seg then clean_segments is_rooted out rest
      else if is_dotdot seg then
        match out with
        | top :: out' =>
            if is_dotdot top then clean_segments is_rooted (seg :: out) rest
            else clean_segments is_rooted out' rest
        | [] =>
            if is_rooted then clean_segments is_rooted [] rest
            else clean_segments is_rooted [seg] rest
        end
      else clean_segments is_rooted (seg :: out) rest
  end.

Definition Clean (path : string) : string :=
  let out := join_segments (rev (clean_segments (rooted path) [] (segments path))) in
  if rooted path then "/" +:+ out
  else if bool_decide (out = "") then "." else out.

(** [filepath.Join a b]: the first non-empty element onwards is joined with
    separators and cleaned; all elements empty gives the empty string. *)
Definition Join (a b : string) : string :=
  if bool_decide (a = "") then
    if bool_decide (b = "") then "" else Clean b
  else Clean (a +:+ "/" +:+ b).

Fixpoint has_sep (s : string) : bool :=
  match s with
  | EmptyString => false
  | String c rest => isSep c || has_sep rest
  end.

(** The part of a path up to and including its last separator. *)
Fixpoint up_to_last_sep (s : string) : string :=
  match s with
  | EmptyString => ""
  | String c rest =>
      if has_sep rest then String c (up_to_last_sep rest)
      else if isSep c then String c "" else ""
  end.

(** [filepath.Dir]. *)
Definition Dir (path : string) : string := Clean (up_to_last_sep path).

(** ** The file system *)

Inductive node : Type :=
  | File (data : list byte)
  | Directory.

(** The state of the operating system: the nodes below the root, by
    location, and the working directory of the process. *)
Record OS : Type := mkOS {
  files : gmap (list string) node;
  cwd : list string
}.

Definition parent (loc : list string) : list string := removelast loc.

(** The root is always a directory. *)
Definition node_at (fs : gmap (list string) node) (loc : list string) : option node :=
  match loc with
  | [] => Some Directory
  | _ => fs !! loc
  end.

Definition enter (fs : gmap (list string) node) (loc : list string)
  : result errno (list string) :=
  match node_at fs loc with
  | Some Directory => Ok loc
  | Some (File _) => Err ENOTDIR
  | None => Err ENOENT
  end.

(** One component of a path that must be a directory. *)
Definition step_dir (fs : gmap (list string) node) (loc : list string) (seg : string)
  : result errno (list string) :=
  if is_skip seg then Ok loc
  else if is_dotdot seg then enter fs (parent loc)
  else enter fs (loc ++ [seg]).

Fixpoint walk_dirs (fs : gmap (list string) node) (loc : list string) (segs : list string)
  : result errno (list string) :=
  match segs with
  | [] => Ok loc
  | seg :: rest => loc' ← step_dir fs loc seg; walk_dirs fs loc' rest
  end.

(** Where resolution starts: the root, or the working directory, which
    must still be there. *)
Definition start (os : OS) (path : string) : result errno (list string) :=
  if rooted path then Ok [] else enter (files os) (cwd os).

(** The last component of a path need not exist. *)
Definition step_last (fs : gmap (list string) node) (loc : list string) (seg : string)
  : result errno (list string) :=
  if is_skip seg || is_dotdot seg then step_dir fs loc seg
  else Ok (loc ++ [seg]).

(** Path resolution: every component but the last must be a directory. *)
Definition resolve (os : OS) (path : string) : result errno (list string) :=
  if bool_decide (path = "") then Err ENOENT
  else
    loc0 ← start os path;
    loc ← walk_dirs (files os) loc0 (removelast (segments path));
    step_last (files os) loc (List.last (segments path) "").

(** What the system takes as a path.  The functions of package [os] refuse
    a path with a NUL byte before any system call (EINVAL); Linux refuses a
    path of 4096 bytes or more (PATH_MAX) and an element of more than 255
    bytes (NAME_MAX), with ENAMETOOLONG.  [resolve] has none of these
    limits. *)
Fixpoint has_nul (s : string) : bool :=
  match s with
  | EmptyString => false
  | String c rest => bool_decide (c = "000"%char) || has_nul rest
  end.

Definition valid_path (path : string) : bool :=
  negb (has_nul path)
  && bool_decide (String.length path < 4096)%nat
  && forallb (λ seg, bool_decide (String.length seg ≤ 255)%nat) (segments path).

(** The names in a directory ([os.ReadDir] sorts them; only their number
    is used here). *)
Definition entries (fs : gmap (list string) node) (loc : list string) : list string :=
  omap (λ e : list string * node,
          if bool_decide (e.1 ≠ [] ∧ parent e.1 = loc) then Some (List.last e.1 "")
          else None)
       (map_to_list fs).

(** ** Package os *)

(** [os.Stat], and [os.Open] for reading: the node a path names. *)
Definition Stat (os : OS) (path : string) : result error node :=
  match resolve os path with
  | Err e => Err (PathError e)
  | Ok loc =>
      match node_at (files os) loc with
      | Some n => Ok n
      | None => Err (PathError ENOENT)
      end
  end.

Definition Open (os : OS) (path : string) : result error node := Stat os path.

(** [file.Read buffer] on a fresh handle with a buffer of [count] bytes: an
    empty file is at its end, a directory opens but does not read. *)
Definition Read (n : node) (count : nat) : result error (list byte) :=
  match n with
  | File [] => Err EOF
  | File data => Ok (take count data)
  | Directory => Err (PathError EISDIR)
  end.

(** Reading a whole handle, as [io.ReadAll] does. *)
Definition ReadAll (n : node) : result error (list byte) :=
  match n with
  | File data => Ok data
  | Directory => Err (PathError EISDIR)
  end.

(** [os.MkdirAll]: the directories of the path are visited from the top,
    and each one that is missing is made.  What was made stays when a later
    component fails.  Where a regular file is in the way the error is
    ENOTDIR, from [os.Stat] of the path up to the file; when nothing but
    separators follow the file, [os.Stat] of that path fails, the [mkdir]
    call is made, and its EEXIST is the error. *)
Fixpoint mkdir_walk (fs : gmap (list string) node) (loc : list string) (segs : list string)
  : gmap (list string) node * option errno :=
  match segs with
  | [] => (fs, None)
  | seg :: rest =>
      if is_skip seg || is_dotdot seg then
        match step_dir fs loc seg with
        | Ok loc' => mkdir_walk fs loc' rest
        | Err e => (fs, Some e)
        end
      else
        match node_at fs (loc ++ [seg]) with
        | Some Directory => mkdir_walk fs (loc ++ [seg]) rest
        | Some (File _) =>
            (fs, Some (match rest with
                       | [] => ENOTDIR
                       | _ :: _ =>
                           if forallb (λ s, bool_decide (s = "")) rest then EEXIST
                           else ENOTDIR
                       end))
        | None => mkdir_walk (<[loc ++ [seg] := Directory]> fs) (loc ++ [seg]) rest
        end
  end.

Definition MkdirAll (os : OS) (path : string) : OS * option error :=
  if bool_decide (path = "") then (os, Some (PathError ENOENT))
  else
    match start os path with
    | Err e => (os, Some (PathError e))
    | Ok loc0 =>
        let '(fs, r) := mkdir_walk (files os) loc0 (segments path) in
        (mkOS fs (cwd os), PathError <$> r)
    end.

(** [os.Create]: the file is made, or emptied when it is there already; the
    handle is the location written to. *)
Definition Create (os : OS) (path : string) : OS * result error (list string) :=
  match resolve os path with
  | Err e => (os, Err (PathError e))
  | Ok loc =>
      match node_at (files os) loc with
      | Some Directory => (os, Err (PathError EISDIR))
      | _ => (mkOS (<[loc := File []]> (files os)) (cwd os), Ok loc)
      end
  end.

(** An [io.Reader]: the bytes it delivers, and the error it ends with, if
    any, in place of the end of the stream. *)
Record Reader : Type := mkReader {
  r_data : list byte;
  r_err : option error
}.

(** The error [io.Copy] returns: [io.EOF] from the reader is the end of
    the stream and no error. *)
Definition copy_error (reader : Reader) : option error :=
  match r_err reader with
  | Some EOF => None
  | err => err
  end.

(** [io.Copy file reader]: what was read before an error is written. *)
Definition Copy (os : OS) (fd : list string) (reader : Reader) : OS * option error :=
  (mkOS (<[fd := File (r_data reader)]> (files os)) (cwd os), copy_error reader).

(** [os.Remove]: a file, or a directory without entries.  The root (EBUSY)
    and a path that ends in [.] (EINVAL) or [..] (ENOTEMPTY) are never
    removed.  A path that ends in a separator is taken for the root, the
    only cleaned path that ends so. *)
Definition Remove (os : OS) (path : string) : OS * option error :=
  match resolve os path with
  | Err e => (os, Some (PathError e))
  | Ok loc =>
      let final := List.last (segments path) "" in
      if is_skip final then
        (os, Some (PathError (if bool_decide (final = "") && bool_decide (loc = [])
                              then EBUSY else EINVAL)))
      else if is_dotdot final then (os, Some (PathError ENOTEMPTY))
      else
        match node_at (files os) loc with
        | None => (os, Some (PathError ENOENT))
        | Some (File _) => (mkOS (delete loc (files os)) (cwd os), None)
        | Some Directory =>
            match entries (files os) loc with
            | [] => (mkOS (delete loc (files os)) (cwd os), None)
            | _ :: _ => (os, Some (PathError ENOTEMPTY))
            end
        end
  end.

(** [os.ReadDir]. *)
Definition ReadDir (os : OS) (path : string) : result error (list string) :=
  match resolve os path with
  | Err e => Err (PathError e)
  | Ok loc =>
      match node_at (files os) loc with
      | Some Directory => Ok (entries (files os) loc)
      | Some (File _) => Err (PathError ENOTDIR)
      | None => Err (PathError ENOENT)
      end
  end.

(** ** Package presigned

    The signer is not part of the sources at hand; the backend only calls
    it.  It is modelled from the specification (section 4.1). *)

(** Nanoseconds, as [time.Duration] and the clock have them. *)
Definition Second : Z := 1000000000.
Definition Hour : Z := 3600 * Second.

(** [Time.Unix]: whole seconds since the epoch. *)
Definition Unix (t : Z) : Z := t `div` Second.

(** Modelled from the spec: the signer record of package presigned, "holding
    a secret key and default expiration"; the URL pattern is the third
    option the backend passes to [presigned.New]. *)
Record Signer : Type := mkSigner {
  secretKey : string;
  defaultExpiration : Z;
  urlPattern : string
}.

(** Modelled from the spec: [presigned.New] with the options
    [WithSecretKey], [WithDefaultExpiration] and [WithURLPattern]. *)
Definition presigned_New (key : string) (expiration : Z) (pattern : string) : Signer :=
  mkSigner key expiration pattern.

(** Modelled from the spec: [IsEnabled], "true iff a non-empty secret key
    is configured". *)
Definition IsEnabled (s : Signer) : bool := bool_decide (secretKey s ≠ "").

(** Stand-ins for the keyed hash and the content sniffer in the examples
    at the end; no property depends on them. *)
Definition sample_hmac (key method path : string) (expires : Z) : string :=
  key +:+ "." +:+ method +:+ "." +:+ path +:+ "." +:+ pretty expires.

Definition sample_sniff (data : list byte) : string := "text/plain; charset=utf-8".

Section Backend.

(** The keyed hash behind [Sign]: a function of the secret key, the method,
    the path and the expiration in Unix seconds. *)
Variable hmac : string → string → string → Z → string.

(** [http.DetectContentType]. *)
Variable DetectContentType : list byte → string.

(** The size [os.Stat] reports for a directory; it depends on the system. *)
Variable dirSize : Z.

(** Modelled from the spec: [Sign(method, path, expiresAt)], "a
    deterministic signature over a canonical string built from method,
    path, and the Unix timestamp of expiresAt, using the secret key as HMAC
    key". *)
Definition Sign (s : Signer) (method path : string) (expiresAt : Z) : string :=
  hmac (secretKey s) method path (Unix expiresAt).

(** Modelled from the spec: [SignURLWithBase(base, method, path, ttl)],
    "composes base + path + ?signature=...&expires=... using Sign with
    expiresAt = now + ttl.  Fails if ttl <= 0 or if signing is not
    configured (no secret key set)". *)
Definition SignURLWithBase (s : Signer) (now : Z) (base method path : string) (ttl : Z)
  : string * option error :=
  if bool_decide (ttl ≤ 0) then ("", Some ErrInvalidExpiration)
  else if negb (IsEnabled s) then ("", Some ErrSigningNotConfigured)
  else
    let expiresAt := now + ttl in
    (base +:+ path +:+ "?signature=" +:+ Sign s method path expiresAt
       +:+ "&expires=" +:+ pretty (Unix expiresAt), None).

(** Modelled from the spec: [Validate(method, path, signature, expiresAt)],
    "fails with ExpiredError when now > expiresAt; fails with
    InvalidSignatureError when the recomputed signature does not match the
    presented one; succeeds (nil) otherwise". *)
Definition Validate (s : Signer) (now : Z) (method path signature : string) (expiresAt : Z)
  : option error :=
  if bool_decide (Unix now > expiresAt) then Some ErrExpired
  else if bool_decide (hmac (secretKey s) method path expiresAt = signature) then None
  else Some ErrInvalidSignature.

(** ** The backend (fs.go) *)

Record Backend : Type := mkBackend {
  baseDir : string;
  urlPrefix : string;
  signer : option Signer;
  presignExpires : Z
}.

Record Config : Type := mkConfig {
  BaseDir : string;
  URLPrefix : string;
  SignatureSecretKey : string;
  PresignExpires : Z
}.

(** [simplecontent.ObjectMeta], with the fields [GetObjectMeta] fills in,
    but for the modification time. *)
Record ObjectMeta : Type := mkObjectMeta {
  Key : string;
  Size : Z;
  ContentType : string;
  Metadata : gmap string string
}.

(** Modelled from the spec: [simplecontent.UploadParams], declared outside
    fs.go, "auxiliary parameters (target key, declared content type, extra
    attributes)"; fs.go reads [ObjectKey] only. *)
Record UploadParams : Type := mkUploadParams {
  ObjectKey : string;
  MimeType : string;
  Attributes : gmap string string
}.

(** [backend.signer = s]. *)
Definition set_signer (b : Backend) (s : Signer) : Backend :=
  mkBackend (baseDir b) (urlPrefix b) (Some s) (presignExpires b).

Definition New (config : Config) (os : OS) : OS * result error Backend :=
  if bool_decide (BaseDir config = "") then
    (os, Err (errors_New "base directory is required"))
  else
    match MkdirAll os (BaseDir config) with
    | (os', Some err) => (os', Err (fmt_Errorf "failed to create base directory" err))
    | (os', None) =>
        let expires :=
          if bool_decide (PresignExpires config = 0) then 1 * Hour
          else PresignExpires config in
        let backend := mkBackend (BaseDir config) (URLPrefix config) None expires in
        let backend :=
          if bool_decide (SignatureSecretKey config ≠ "") then
            set_signer backend
              (presigned_New (SignatureSecretKey config) expires "/upload/{key}")
          else backend in
        (os', Ok backend)
    end.

(** [info.Size()]. *)
Definition FileSize (n : node) : Z :=
  match n with
  | File data => Z.of_nat (length data)
  | Directory => dirSize
  end.

Definition GetObjectMeta (b : Backend) (os : OS) (objectKey : string)
  : result error ObjectMeta :=
  let filePath := Join (baseDir b) objectKey in
  match Stat os filePath with
  | Err err =>
      if IsNotExist err then Err (errors_New "object not found")
      else Err (fmt_Errorf "failed to get file info" err)
  | Ok info =>
      let contentType :=
        match Open os filePath with
        | Ok file =>
            match Read file 512 with
            | Ok buffer => DetectContentType buffer
            | Err _ => "application/octet-stream"
            end
        | Err _ => "application/octet-stream"
        end in
      Ok (mkObjectMeta objectKey (FileSize info) contentType
            {[ "content_type" := contentType ]})
  end.

Definition GetUploadURL (b : Backend) (now : Z) (objectKey : string)
  : string * option error :=
  if bool_decide (urlPrefix b = "") then
    ("", Some (errors_New "direct upload required for filesystem backend"))
  else
    let path := "/upload/" +:+ objectKey in
    match signer b with
    | Some s => SignURLWithBase s now (urlPrefix b) "PUT" path (presignExpires b)
    | None => (urlPrefix b +:+ path, None)
    end.

Definition Upload (b : Backend) (os : OS) (objectKey : string) (reader : Reader)
  : OS * option error :=
  let filePath := Join (baseDir b) objectKey in
  let dir := Dir filePath in
  match MkdirAll os dir with
  | (os1, Some err) => (os1, Some (fmt_Errorf "failed to create directory" err))
  | (os1, None) =>
      match Create os1 filePath with
      | (os2, Err err) => (os2, Some (fmt_Errorf "failed to create file" err))
      | (os2, Ok file) =>
          match Copy os2 file reader with
          | (os3, Some err) => (os3, Some (fmt_Errorf "failed to write file" err))
          | (os3, None) => (os3, None)
          end
      end
  end.

Definition UploadWithParams (b : Backend) (os : OS) (reader : Reader) (params : UploadParams)
  : OS * option error :=
  Upload b os (ObjectKey params) reader.

Definition GetDownloadURL (b : Backend) (objectKey downloadFilename : string)
  : string * option error :=
  if bool_decide (urlPrefix b = "") then
    ("", Some (errors_New "direct download required for filesystem backend"))
  else if bool_decide (downloadFilename ≠ "") then
    (urlPrefix b +:+ "/download/" +:+ objectKey +:+ "?filename=" +:+ downloadFilename, None)
  else (urlPrefix b +:+ "/download/" +:+ objectKey, None).

Definition GetPreviewURL (b : Backend) (objectKey : string) : string * option error :=
  if bool_decide (urlPrefix b = "") then
    ("", Some (errors_New "direct preview required for filesystem backend"))
  else (urlPrefix b +:+ "/preview/" +:+ objectKey, None).

(** The handle [Download] returns is the node opened; [ReadAll] reads it. *)
Definition Download (b : Backend) (os : OS) (objectKey : string) : result error node :=
  let filePath := Join (baseDir b) objectKey in
  match Open os filePath with
  | Err err =>
      if IsNotExist err then Err (errors_New "object not found")
      else Err (fmt_Errorf "failed to open file" err)
  | Ok file => Ok file
  end.

(** The recursion of [cleanupEmptyDirectories].  Every call but the first
    follows a removal, so one more step than there are nodes is enough
    ([cleanup_steps_enough]). *)
Fixpoint cleanup_steps (steps : nat) (b : Backend) (os : OS) (dir : string) : OS :=
  match steps with
  | O => os
  | S steps' =>
      if bool_decide (dir = baseDir b) then os
      else
        match ReadDir os dir with
        | Ok [] =>
            match Remove os dir with
            | (os', None) => cleanup_steps steps' b os' (Dir dir)
            | (os', Some _) => os'
            end
        | _ => os
        end
  end.

Definition cleanupEmptyDirectories (b : Backend) (os : OS) (dir : string) : OS :=
  cleanup_steps (S (size (files os))) b os dir.

Definition Delete (b : Backend) (os : OS) (objectKey : string) : OS * option error :=
  let filePath := Join (baseDir b) objectKey in
  if match Stat os filePath with
     | Err err => IsNotExist err
     | Ok _ => false
     end
  then (os, Some (errors_New "object not found"))
  else
    match Remove os filePath with
    | (os1, Some err) => (os1, Some (fmt_Errorf "failed to delete file" err))
    | (os1, None) => (cleanupEmptyDirectories b os1 (Dir filePath), None)
    end.

Definition ValidateUploadSignature (b : Backend) (now : Z)
    (objectKey signature : string) (expiresAt : Z) : option error :=
  match signer b with
  | None => None
  | Some s =>
      let path := "/upload/" +:+ objectKey in
      Validate s now "PUT" path signature expiresAt
  end.

Definition IsSignedURLEnabled (b : Backend) : bool :=
  match signer b with
  | Some s => IsEnabled s
  | None => false
  end.

Definition GetSigner (b : Backend) : option Signer := signer b.

(** ** Notions used in the statements *)

(** [bytes.NewReader p]: a reader that delivers [p] and ends. *)
Definition payload (p : list byte) : Reader := mkReader p None.

(** [fs'] has every directory of [fs]: true when files are written and
    directories are made. *)
Definition keeps_dirs (fs fs' : gmap (list string) node) : Prop :=
  ∀ loc, node_at fs loc = Some Directory → node_at fs' loc = Some Directory.

(** [fs'] has nothing that [fs] has not: true when nodes are removed. *)
Definition only_removes (fs fs' : gmap (list string) node) : Prop :=
  ∀ loc, node_at fs' loc = node_at fs loc ∨ node_at fs' loc = None.

(** Where a path leads by its text alone: [.] and empty elements stay,
    [..] goes to the parent, a name goes down. *)
Definition lex_step (loc : list string) (seg : string) : list string :=
  if is_skip seg then loc
  else if is_dotdot seg then parent loc
  else loc ++ [seg].

Definition lex_walk (loc : list string) (segs : list string) : list string :=
  foldl lex_step loc segs.

(** The location a path names, seen from the working directory [wd]. *)
Definition locate (wd : list string) (path : string) : list string :=
  lex_walk (if rooted path then [] else wd) (segments path).

(** The names in a key: its elements other than [.] and the empty one. *)
Definition names (key : string) : list string :=
  filter (λ seg, is_skip seg = false) (segments key).

(** The elements [Clean] keeps are elements of the path that are neither
    empty nor [.]. *)
Definition kept (seg : string) : Prop := is_skip seg = false ∧ has_sep seg = false.

(** [fs'] is [fs] with directories added where there was nothing: true of
    [MkdirAll]. *)
Definition only_adds_dirs (fs fs' : gmap (list string) node) : Prop :=
  ∀ loc, fs' !! loc = fs !! loc ∨ (fs !! loc = None ∧ fs' !! loc = Some Directory).

(** [os'] is [os] after some directories were removed, each one without
    entries when it went: true of [cleanupEmptyDirectories]. *)
Inductive pruned : OS → OS → Prop :=
  | pruned_refl os : pruned os os
  | pruned_step os loc os' :
      loc ≠ [] → files os !! loc = Some Directory → entries (files os) loc = [] →
      pruned (mkOS (delete loc (files os)) (cwd os)) os' →
      pruned os os'.

(** An element that names an entry: neither empty, nor [.], nor [..]. *)
Definition is_name (seg : string) : bool := negb (is_skip seg) && negb (is_dotdot seg).

(** The text [Clean] gives for the elements it keeps, last element first. *)
Definition render (is_rooted : bool) (out : list string) : string :=
  let text := join_segments (rev out) in
  if is_rooted then "/" +:+ text
  else if bool_decide (text = "") then "." else text.

(** ** Example data

    States and backends for the examples at the end.  The working
    directory is the root throughout. *)

(** A directory /srv/store and nothing else. *)
Definition srv_os : OS :=
  mkOS (<[ ["srv"; "store"] := Directory ]> (<[ ["srv"] := Directory ]> ∅)) [].

(** The same with an object stored under the key a/b/c. *)
Definition occupied_os : OS :=
  mkOS (<[ ["srv"; "store"; "a"; "b"; "c"] := File ["o"; "l"; "d"]%byte ]>
       (<[ ["srv"; "store"; "a"; "b"] := Directory ]>
       (<[ ["srv"; "store"; "a"] := Directory ]> (files srv_os)))) [].

Definition overwritten_os : OS :=
  mkOS (<[ ["srv"; "store"; "a"; "b"; "c"] := File ["n"; "e"; "w"; "e"; "r"]%byte ]>
          (files occupied_os)) [].

(** /srv/store with a file next to it, outside the base directory. *)
Definition escaped_os : OS :=
  mkOS (<[ ["srv"; "secret"] := File ["h"; "i"]%byte ]> (files srv_os)) [].

(** A directory /tmp that holds one file. *)
Definition tmp_os : OS :=
  mkOS (<[ ["tmp"; "keep"] := File ["k"]%byte ]> (<[ ["tmp"] := Directory ]> ∅)) [].

Definition tmp_store_os : OS :=
  mkOS (<[ ["tmp"; "store"] := Directory ]> (files tmp_os)) [].

Definition tmp_store_abc_os : OS :=
  mkOS (<[ ["tmp"; "store"; "a"; "b"; "c"] := File ["x"]%byte ]>
       (<[ ["tmp"; "store"; "a"; "b"] := Directory ]>
       (<[ ["tmp"; "store"; "a"] := Directory ]> (files tmp_store_os)))) [].

Definition tmp_store_abcd_os : OS :=
  mkOS (<[ ["tmp"; "store"; "a"; "b"; "d"] := File ["y"]%byte ]>
          (files tmp_store_abc_os)) [].

Definition tmp_store_abd_os : OS :=
  mkOS (<[ ["tmp"; "store"; "a"; "b"; "d"] := File ["y"]%byte ]>
       (<[ ["tmp"; "store"; "a"; "b"] := Directory ]>
       (<[ ["tmp"; "store"; "a"] := Directory ]> (files tmp_store_os)))) [].

(** A backend on /srv/store without URL prefix and signer. *)
Definition store_backend : Backend := mkBackend "/srv/store" "" None Hour.

(** Backends on /tmp/store, the base directory written with and without a
    trailing separator. *)
Definition slash_backend : Backend := mkBackend "/tmp/store/" "" None Hour.
Definition clean_backend : Backend := mkBackend "/tmp/store" "" None Hour.

Definition open_config : Config := mkConfig "/srv/store" "http://files.example" "" 0.

Definition open_backend : Backend :=
  mkBackend "/srv/store" "http://files.example" None Hour.

Definition slash_config : Config := mkConfig "/tmp/store/" "" "" 0.

Definition signed_config : Config :=
  mkConfig "/srv/store" "http://files.example" "s3cr3t" (5 * Second).

Definition signed_backend : Backend :=
  mkBackend "/srv/store" "http://files.example"
    (Some (mkSigner "s3cr3t" (5 * Second) "/upload/{key}")) (5 * Second).

(** A configuration with a negative expiration. *)
Definition negative_config : Config :=
  mkConfig "/srv/store" "http://files.example" "s3cr3t" (- Second).

Definition negative_backend : Backend :=
  mkBackend "/srv/store" "http://files.example"
    (Some (mkSigner "s3cr3t" (- Second) "/upload/{key}")) (- Second).

(** /srv/store with one object under the key x/y. *)
Definition xy_os : OS :=
  mkOS (<[ ["srv"; "store"; "x"; "y"] := File ["p"; "1"]%byte ]>
       (<[ ["srv"; "store"; "x"] := Directory ]> (files srv_os))) [].

(** A reader that fails after two bytes. *)
Definition broken_reader : Reader := mkReader ["p"; "a"]%byte (Some (ReadError "broken pipe")).

(** ** Path resolution under changes of the file system *)

Lemma node_at_insert_ne fs loc q n :
  loc ≠ q → node_at (<[q := n]> fs) loc = node_at fs loc.
Proof. intros Hne. destruct loc; [done|]. simpl. by rewrite lookup_insert_ne. Qed.

Lemma node_at_snoc fs loc (seg : string) : node_at fs (loc ++ [seg]) = fs !! (loc ++ [seg]).
Proof. by destruct loc. Qed.

Lemma node_at_nonroot fs loc : loc ≠ [] → node_at fs loc = fs !! loc.
Proof. by destruct loc. Qed.

Lemma enter_Ok fs loc loc' :
  enter fs loc = Ok loc' → loc' = loc ∧ node_at fs loc = Some Directory.
Proof. unfold enter. destruct (node_at fs loc) as [[]|]; [done| |done]. by intros [= <-]. Qed.

Lemma enter_dir fs loc : node_at fs loc = Some Directory → enter fs loc = Ok loc.
Proof. unfold enter. by intros ->. Qed.

Lemma keeps_dirs_refl fs : keeps_dirs fs fs.
Proof. by intros loc. Qed.

Lemma keeps_dirs_trans fs1 fs2 fs3 :
  keeps_dirs fs1 fs2 → keeps_dirs fs2 fs3 → keeps_dirs fs1 fs3.
Proof. intros H12 H23 loc Hd. eauto. Qed.

Lemma keeps_dirs_insert fs q n :
  node_at fs q ≠ Some Directory → keeps_dirs fs (<[q := n]> fs).
Proof.
  intros Hq loc Hd. rewrite node_at_insert_ne; [done|]. by intros ->.
Qed.

Lemma keeps_dirs_mkdir fs q : keeps_dirs fs (<[q := Directory]> fs).
Proof.
  intros loc Hd. destruct (decide (loc = q)) as [->|Hne].
  - destruct q; [done|]. simpl. by rewrite lookup_insert_eq.
  - by rewrite node_at_insert_ne.
Qed.

Lemma step_dir_keeps fs fs' loc seg loc' :
  keeps_dirs fs fs' → step_dir fs loc seg = Ok loc' → step_dir fs' loc seg = Ok loc'.
Proof.
  intros Hk. unfold step_dir.
  destruct (is_skip seg); [done|].
  destruct (is_dotdot seg); intros [-> Hd]%enter_Ok; apply enter_dir; auto.
Qed.

Lemma walk_dirs_keeps fs fs' segs : ∀ loc loc',
  keeps_dirs fs fs' → walk_dirs fs loc segs = Ok loc' → walk_dirs fs' loc segs = Ok loc'.
Proof.
  induction segs as [|seg segs IH]; intros loc loc' Hk; simpl; [done|].
  destruct (step_dir fs loc seg) as [loc1|e] eqn:Hstep; [|done].
  rewrite (step_dir_keeps _ _ _ _ _ Hk Hstep). simpl. by apply IH.
Qed.

Lemma step_last_keeps fs fs' loc seg loc' :
  keeps_dirs fs fs' → step_last fs loc seg = Ok loc' → step_last fs' loc seg = Ok loc'.
Proof.
  intros Hk. unfold step_last.
  destruct (is_skip seg || is_dotdot seg); [|done]. by apply step_dir_keeps.
Qed.

Lemma resolve_keeps os os' path loc :
  keeps_dirs (files os) (files os') → cwd os' = cwd os →
  resolve os path = Ok loc → resolve os' path = Ok loc.
Proof.
  intros Hk Hcwd. unfold resolve. case_bool_decide; [done|].
  destruct (start os path) as [loc0|e] eqn:Hstart; [|done].
  assert (start os' path = Ok loc0) as ->.
  { revert Hstart. unfold start. rewrite Hcwd.
    destruct (rooted path); [done|]. intros [-> Hd]%enter_Ok. apply enter_dir; auto. }
  simpl.
  destruct (walk_dirs (files os) loc0 _) as [loc1|e] eqn:Hwalk; [|done].
  rewrite (walk_dirs_keeps _ _ _ _ _ Hk Hwalk). simpl.
  by apply step_last_keeps.
Qed.

Lemma only_removes_refl fs : only_removes fs fs.
Proof. intros loc. by left. Qed.

Lemma only_removes_trans fs1 fs2 fs3 :
  only_removes fs1 fs2 → only_removes fs2 fs3 → only_removes fs1 fs3.
Proof.
  intros H12 H23 loc. destruct (H23 loc) as [->|]; [|by right]. apply H12.
Qed.

Lemma only_removes_delete fs q : only_removes fs (delete q fs).
Proof.
  intros loc. destruct loc as [|seg loc]; [by left|]. simpl.
  destruct (decide (q = seg :: loc)) as [->|Hne].
  - right. apply lookup_delete_eq.
  - left. by apply lookup_delete_ne.
Qed.

Lemma enter_only_removes fs fs' loc loc' :
  only_removes fs fs' → enter fs loc = Ok loc' →
  enter fs' loc = Ok loc' ∨ enter fs' loc = Err ENOENT.
Proof.
  intros Hr [-> Hd]%enter_Ok. unfold enter.
  destruct (Hr loc) as [-> | ->]; [rewrite Hd|]; auto.
Qed.

Lemma step_dir_only_removes fs fs' loc seg loc' :
  only_removes fs fs' → step_dir fs loc seg = Ok loc' →
  step_dir fs' loc seg = Ok loc' ∨ step_dir fs' loc seg = Err ENOENT.
Proof.
  intros Hr. unfold step_dir.
  destruct (is_skip seg); [by left|].
  destruct (is_dotdot seg); by apply enter_only_removes.
Qed.

Lemma walk_dirs_only_removes fs fs' segs : ∀ loc loc',
  only_removes fs fs' → walk_dirs fs loc segs = Ok loc' →
  walk_dirs fs' loc segs = Ok loc' ∨ walk_dirs fs' loc segs = Err ENOENT.
Proof.
  induction segs as [|seg segs IH]; intros loc loc' Hr; simpl; [by left|].
  destruct (step_dir fs loc seg) as [loc1|e] eqn:Hstep; [|done]. simpl.
  destruct (step_dir_only_removes _ _ _ _ _ Hr Hstep) as [-> | ->]; simpl; auto.
Qed.

Lemma resolve_only_removes os os' path loc :
  only_removes (files os) (files os') → cwd os' = cwd os →
  resolve os path = Ok loc →
  resolve os' path = Ok loc ∨ resolve os' path = Err ENOENT.
Proof.
  intros Hr Hcwd. unfold resolve. case_bool_decide; [done|].
  destruct (start os path) as [loc0|e] eqn:Hstart; [|done]. simpl.
  assert (start os' path = Ok loc0 ∨ start os' path = Err ENOENT) as [-> | ->].
  { revert Hstart. unfold start. rewrite Hcwd.
    destruct (rooted path); [by left|]. by apply enter_only_removes. }
  2: by right.
  simpl.
  destruct (walk_dirs (files os) loc0 _) as [loc1|e] eqn:Hwalk; [|done]. simpl.
  destruct (walk_dirs_only_removes _ _ _ _ _ Hr Hwalk) as [-> | ->]; simpl; [|by right].
  unfold step_last. destruct (is_skip _ || is_dotdot _); [|by left].
  by apply step_dir_only_removes.
Qed.

(** A path that ends in a name resolves to a location that ends in it. *)
Lemma resolve_name os path loc :
  resolve os path = Ok loc →
  is_skip (List.last (segments path) "") = false →
  is_dotdot (List.last (segments path) "") = false →
  ∃ dir, loc = dir ++ [List.last (segments path) ""].
Proof.
  unfold resolve. case_bool_decide; [done|].
  destruct (start os path) as [loc0|e]; [|done]. simpl.
  destruct (walk_dirs (files os) loc0 _) as [loc1|e]; [|done]. simpl.
  unfold step_last. intros Hres Hskip Hdd. rewrite Hskip, Hdd in Hres.
  exists loc1. simpl in Hres. congruence.
Qed.

(** ** The system calls *)

Lemma Stat_Ok os path n :
  Stat os path = Ok n ↔ ∃ loc, resolve os path = Ok loc ∧ node_at (files os) loc = Some n.
Proof.
  unfold Stat. split.
  - destruct (resolve os path) as [loc|e]; [|done].
    destruct (node_at (files os) loc) as [n'|] eqn:Hn; [|done].
    intros [= ->]. eauto.
  - intros (loc & -> & ->). done.
Qed.

Lemma Remove_None os path os' :
  Remove os path = (os', None) →
  ∃ loc, resolve os path = Ok loc ∧ loc ≠ [] ∧ is_Some (files os !! loc) ∧
         os' = mkOS (delete loc (files os)) (cwd os).
Proof.
  unfold Remove.
  destruct (resolve os path) as [loc|e] eqn:Hres; [|done].
  destruct (is_skip _) eqn:Hskip; [done|].
  destruct (is_dotdot _) eqn:Hdd; [done|].
  destruct (resolve_name _ _ _ Hres Hskip Hdd) as [dir ->].
  rewrite node_at_snoc.
  destruct (files os !! (dir ++ _)) as [[data|]|] eqn:Hnode; [| |done].
  - intros [= <-]. eexists. split_and!; eauto. by destruct dir.
  - destruct (entries _ _); [|done].
    intros [= <-]. eexists. split_and!; eauto. by destruct dir.
Qed.

Lemma Remove_only_removes os path os' r :
  Remove os path = (os', r) →
  only_removes (files os) (files os') ∧ cwd os' = cwd os.
Proof.
  destruct r as [e|].
  - unfold Remove.
    destruct (resolve os path) as [loc|?]; [|intros [= <- _]; split; [apply only_removes_refl|done]].
    destruct (is_skip _); [intros [= <- _]; split; [apply only_removes_refl|done]|].
    destruct (is_dotdot _); [intros [= <- _]; split; [apply only_removes_refl|done]|].
    destruct (node_at _ _) as [[?|]|]; [done| |].
    + destruct (entries _ _); [done|]. intros [= <- _]. split; [apply only_removes_refl|done].
    + intros [= <- _]. split; [apply only_removes_refl|done].
  - intros (loc & _ & _ & _ & ->)%Remove_None. simpl.
    split; [apply only_removes_delete|done].
Qed.

Lemma Remove_size os path os' :
  Remove os path = (os', None) → (size (files os') < size (files os))%nat.
Proof.
  intros (loc & _ & _ & [n Hn] & ->)%Remove_None. simpl.
  rewrite map_size_delete, Hn.
  assert (size (files os) ≠ 0%nat) by (eapply map_size_ne_0_lookup_2; eauto).
  simpl. lia.
Qed.

Lemma segments_nonempty path : segments path ≠ [].
Proof. destruct path as [|c rest]; simpl; [done|]. destruct (isSep c), (segments rest); done. Qed.

Lemma start_dir os path loc0 :
  start os path = Ok loc0 → node_at (files os) loc0 = Some Directory.
Proof.
  unfold start. destruct (rooted path); [by intros [= <-]|].
  by intros [-> Hd]%enter_Ok.
Qed.

Lemma step_dir_dir fs loc seg loc' :
  node_at fs loc = Some Directory → step_dir fs loc seg = Ok loc' →
  node_at fs loc' = Some Directory.
Proof.
  intros Hloc. unfold step_dir.
  destruct (is_skip seg); [by intros [= <-]|].
  destruct (is_dotdot seg); by intros [-> Hd]%enter_Ok.
Qed.

Lemma walk_dirs_dir fs segs : ∀ loc loc',
  node_at fs loc = Some Directory → walk_dirs fs loc segs = Ok loc' →
  node_at fs loc' = Some Directory.
Proof.
  induction segs as [|seg segs IH]; intros loc loc' Hloc; simpl; [by intros [= <-]|].
  destruct (step_dir fs loc seg) as [loc1|e] eqn:Hstep; [|done]. simpl.
  apply IH. by eapply step_dir_dir.
Qed.

Lemma walk_dirs_app fs segs1 segs2 : ∀ loc,
  walk_dirs fs loc (segs1 ++ segs2)
  = (loc1 ← walk_dirs fs loc segs1; walk_dirs fs loc1 segs2).
Proof.
  induction segs1 as [|seg segs1 IH]; intros loc; simpl; [done|].
  destruct (step_dir fs loc seg) as [loc1|e]; simpl; [apply IH|done].
Qed.

(** A path whose components are all directories resolves to the last. *)
Lemma walk_resolve os path loc0 loc :
  path ≠ "" → start os path = Ok loc0 →
  walk_dirs (files os) loc0 (segments path) = Ok loc →
  resolve os path = Ok loc ∧ node_at (files os) loc = Some Directory.
Proof.
  intros Hne Hstart Hwalk. split.
  - unfold resolve. rewrite bool_decide_false by done. rewrite Hstart. simpl.
    rewrite (app_removelast_last "" (segments_nonempty path)), walk_dirs_app in Hwalk.
    destruct (walk_dirs (files os) loc0 (removelast _)) as [loc1|e]; [|done].
    simpl in *. unfold step_last.
    destruct (step_dir (files os) loc1 _) as [loc2|e] eqn:Hstep; [|done].
    simpl in Hwalk. injection Hwalk as ->.
    destruct (is_skip _ || is_dotdot _) eqn:Hcase; [done|].
    apply orb_false_iff in Hcase as [Hskip Hdd].
    unfold step_dir in Hstep. rewrite Hskip, Hdd in Hstep.
    apply enter_Ok in Hstep as [-> _]. done.
  - eapply walk_dirs_dir; [|done]. by eapply start_dir.
Qed.

Lemma mkdir_walk_keeps segs : ∀ fs loc fs' r,
  mkdir_walk fs loc segs = (fs', r) → keeps_dirs fs fs'.
Proof.
  induction segs as [|seg segs IH]; intros fs loc fs' r; simpl.
  { intros [= <- _]. apply keeps_dirs_refl. }
  destruct (is_skip seg || is_dotdot seg).
  { destruct (step_dir fs loc seg); [apply IH|]. intros [= <- _]. apply keeps_dirs_refl. }
  destruct (node_at fs (loc ++ [seg])) as [[data|]|].
  - intros [= <- _]. apply keeps_dirs_refl.
  - apply IH.
  - intros Hrec. eapply keeps_dirs_trans; [apply keeps_dirs_mkdir|]. by eapply IH.
Qed.

Lemma mkdir_walk_None segs : ∀ fs loc fs',
  mkdir_walk fs loc segs = (fs', None) → ∃ loc', walk_dirs fs' loc segs = Ok loc'.
Proof.
  induction segs as [|seg segs IH]; intros fs loc fs'; simpl; [eauto|].
  destruct (is_skip seg || is_dotdot seg) eqn:Hcase.
  { destruct (step_dir fs loc seg) as [loc1|e] eqn:Hstep; [|done].
    intros Hrec. rewrite (step_dir_keeps fs fs' _ _ loc1); [by eapply IH| |done].
    by eapply mkdir_walk_keeps. }
  apply orb_false_iff in Hcase as [Hskip Hdd].
  assert (∀ fs1, node_at fs1 (loc ++ [seg]) = Some Directory →
                 mkdir_walk fs1 (loc ++ [seg]) segs = (fs', None) →
                 ∃ loc', (loc1 ← step_dir fs' loc seg; walk_dirs fs' loc1 segs) = Ok loc')
    as Hmade.
  { intros fs1 Hd Hrec.
    rewrite (step_dir_keeps fs1 fs' _ _ (loc ++ [seg])); [by eapply IH| |].
    - by eapply mkdir_walk_keeps.
    - unfold step_dir. rewrite Hskip, Hdd. by apply enter_dir. }
  destruct (node_at fs (loc ++ [seg])) as [[data|]|] eqn:Hnode; [done| |].
  - by apply Hmade.
  - apply Hmade. rewrite node_at_snoc. apply lookup_insert_eq.
Qed.

Lemma MkdirAll_keeps os path os' r :
  MkdirAll os path = (os', r) → keeps_dirs (files os) (files os') ∧ cwd os' = cwd os.
Proof.
  unfold MkdirAll. case_bool_decide.
  { intros [= <- _]. split; [apply keeps_dirs_refl|done]. }
  destruct (start os path) as [loc0|e].
  2: { intros [= <- _]. split; [apply keeps_dirs_refl|done]. }
  destruct (mkdir_walk _ _ _) as [fs r'] eqn:Hwalk. intros [= <- _]. simpl.
  split; [by eapply mkdir_walk_keeps|done].
Qed.

(** After [MkdirAll] the path names a directory. *)
Lemma MkdirAll_None os path os' :
  MkdirAll os path = (os', None) → Stat os' path = Ok Directory.
Proof.
  intros Hmk. destruct (MkdirAll_keeps _ _ _ _ Hmk) as [Hk Hcwd].
  revert Hmk. unfold MkdirAll. case_bool_decide as Hne; [done|].
  destruct (start os path) as [loc0|e] eqn:Hstart; [|done].
  destruct (mkdir_walk _ _ _) as [fs [e|]] eqn:Hwalk; [done|]. intros [= <-].
  apply mkdir_walk_None in Hwalk as [loc Hwalk].
  apply Stat_Ok. exists loc. apply (walk_resolve (mkOS fs (cwd os)) _ loc0); [done| |done].
  revert Hstart. unfold start. simpl. destruct (rooted path); [done|].
  intros [-> Hd]%enter_Ok. apply enter_dir. by apply Hk.
Qed.

Lemma Create_Ok os path os' fd :
  Create os path = (os', Ok fd) →
  resolve os path = Ok fd ∧ node_at (files os) fd ≠ Some Directory ∧
  os' = mkOS (<[fd := File []]> (files os)) (cwd os).
Proof.
  unfold Create. destruct (resolve os path) as [loc|e]; [|done].
  destruct (node_at (files os) loc) as [[data|]|] eqn:Hnode;
    [|done|]; intros [= <- <-]; rewrite Hnode; done.
Qed.

(** The walk of [cleanupEmptyDirectories] removes nodes and does nothing
    else. *)
Lemma cleanup_steps_only_removes steps b : ∀ os dir,
  only_removes (files os) (files (cleanup_steps steps b os dir)) ∧
  cwd (cleanup_steps steps b os dir) = cwd os.
Proof.
  induction steps as [|steps IH]; intros os dir; simpl.
  { split; [apply only_removes_refl|done]. }
  case_bool_decide; [split; [apply only_removes_refl|done]|].
  destruct (ReadDir os dir) as [[|? ?]|e]; try (split; [apply only_removes_refl|done]).
  destruct (Remove os dir) as [os' [e|]] eqn:Hrm;
    apply Remove_only_removes in Hrm as [Hr Hcwd]; [done|].
  destruct (IH os' (Dir dir)) as [Hr' Hcwd'].
  split; [by eapply only_removes_trans|congruence].
Qed.

(** The walk never stops for lack of steps: with more steps than nodes,
    the number of steps allowed does not matter. *)
Lemma cleanup_steps_enough b : ∀ n m os dir,
  (size (files os) < n)%nat → (size (files os) < m)%nat →
  cleanup_steps n b os dir = cleanup_steps m b os dir.
Proof.
  induction n as [|n IH]; intros m os dir Hn Hm; [lia|].
  destruct m as [|m]; [lia|]. simpl.
  case_bool_decide; [done|].
  destruct (ReadDir os dir) as [[|? ?]|e]; try done.
  destruct (Remove os dir) as [os' [e|]] eqn:Hrm; [done|].
  apply Remove_size in Hrm. apply IH; lia.
Qed.

(** ** Upload, download and delete *)

(** What a successful [Upload] did: the directory of the file was made,
    and the file was written at the location its path resolves to. *)
Lemma Upload_None b os k r os' :
  Upload b os k r = (os', None) →
  ∃ os1 loc,
    MkdirAll os (Dir (Join (baseDir b) k)) = (os1, None) ∧
    resolve os1 (Join (baseDir b) k) = Ok loc ∧
    node_at (files os1) loc ≠ Some Directory ∧
    os' = mkOS (<[loc := File (r_data r)]> (files os1)) (cwd os1) ∧
    copy_error r = None.
Proof.
  unfold Upload.
  destruct (MkdirAll os _) as [os1 [e|]] eqn:Hmk; [done|].
  destruct (Create os1 _) as [os2 [fd|e]] eqn:Hcreate; [|done].
  apply Create_Ok in Hcreate as (Hres & Hnode & ->).
  unfold Copy. simpl. destruct (copy_error r) as [e|] eqn:Herr; [done|].
  intros [= <-]. exists os1, fd. rewrite insert_insert_eq. done.
Qed.

(** After a successful [Upload] the path of the key names a file with the
    bytes of the reader. *)
Lemma Upload_Stat b os k r os' :
  Upload b os k r = (os', None) →
  Stat os' (Join (baseDir b) k) = Ok (File (r_data r)).
Proof.
  intros (os1 & loc & _ & Hres & Hnode & -> & _)%Upload_None.
  apply Stat_Ok. exists loc. split.
  - apply (resolve_keeps os1); [|done..]. simpl. by apply keeps_dirs_insert.
  - simpl. destruct loc; [done|]. simpl. apply lookup_insert_eq.
Qed.

(** What a successful [Delete] did: the node the key names was removed,
    and after it nothing but further removals happened. *)
Lemma Delete_None b os k os' :
  Delete b os k = (os', None) →
  ∃ loc,
    resolve os (Join (baseDir b) k) = Ok loc ∧ loc ≠ [] ∧
    is_Some (files os !! loc) ∧
    only_removes (delete loc (files os)) (files os') ∧ cwd os' = cwd os.
Proof.
  unfold Delete.
  destruct (match Stat os _ with Ok _ => false | Err err => IsNotExist err end); [done|].
  destruct (Remove os _) as [os1 [e|]] eqn:Hrm; [done|].
  apply Remove_None in Hrm as (loc & Hres & Hroot & Hnode & ->).
  intros [= <-]. exists loc. unfold cleanupEmptyDirectories.
  edestruct cleanup_steps_only_removes as [Hr Hcwd].
  split_and!; [done..|exact Hr|exact Hcwd].
Qed.

(** After a successful [Delete] the path of the key names nothing. *)
Lemma Delete_Stat b os k os' :
  Delete b os k = (os', None) →
  Stat os' (Join (baseDir b) k) = Err (PathError ENOENT).
Proof.
  intros (loc & Hres & Hroot & _ & Hr & Hcwd)%Delete_None.
  assert (only_removes (files os) (files os')) as Hr'.
  { eapply only_removes_trans; [apply only_removes_delete|done]. }
  unfold Stat.
  destruct (resolve_only_removes _ _ _ _ Hr' Hcwd Hres) as [-> | ->]; [|done].
  destruct (Hr loc) as [Hloc|Hloc]; rewrite Hloc; [|done].
  rewrite node_at_nonroot by done. by rewrite lookup_delete_eq.
Qed.

(** A key that holds an object can always be deleted. *)
Lemma Delete_occupied b os k data :
  Download b os k = Ok (File data) → ∃ os', Delete b os k = (os', None).
Proof.
  unfold Download, Open.
  destruct (Stat os _) as [n|e] eqn:Hstat; [|by destruct (IsNotExist e)].
  intros [= ->]. unfold Delete. rewrite Hstat.
  apply Stat_Ok in Hstat as (loc & Hres & Hnode).
  unfold Remove. rewrite Hres.
  assert (is_skip (List.last (segments (Join (baseDir b) k)) "")
          || is_dotdot (List.last (segments (Join (baseDir b) k)) "") = false) as Hname.
  { revert Hres. unfold resolve. case_bool_decide; [done|].
    destruct (start os _) as [loc0|e] eqn:Hstart; [|done]. simpl.
    destruct (walk_dirs (files os) loc0 _) as [loc1|e] eqn:Hwalk; [|done]. simpl.
    unfold step_last. destruct (_ || _); [|done].
    intros Hstep. eapply step_dir_dir in Hstep; [congruence|].
    eapply walk_dirs_dir; [|done]. by eapply start_dir. }
  apply orb_false_iff in Hname as [-> ->]. rewrite Hnode. eauto.
Qed.

(** C3: for every key [k], after [Delete k] has returned success both
    [Download k] and [GetObjectMeta k] fail with the error "object not
    found". *)
Theorem delete_then_not_found (b : Backend) (os os' : OS) (k : string) :
  Delete b os k = (os', None) →
  Download b os' k = Err (errors_New "object not found") ∧
  GetObjectMeta b os' k = Err (errors_New "object not found").
Proof.
  intros Hstat%Delete_Stat.
  unfold Download, GetObjectMeta, Open. by rewrite Hstat.
Qed.

(** ** Construction *)

Lemma New_Ok config os os' b :
  New config os = (os', Ok b) →
  BaseDir config ≠ "" ∧ MkdirAll os (BaseDir config) = (os', None) ∧
  baseDir b = BaseDir config ∧ urlPrefix b = URLPrefix config ∧
  presignExpires b
    = (if bool_decide (PresignExpires config = 0) then Hour else PresignExpires config) ∧
  signer b
    = (if bool_decide (SignatureSecretKey config ≠ "")
       then Some (presigned_New (SignatureSecretKey config) (presignExpires b) "/upload/{key}")
       else None).
Proof.
  unfold New. case_bool_decide as Hbase; [done|].
  destruct (MkdirAll os _) as [os1 [e|]]; [done|].
  intros [= <- <-]. rewrite Z.mul_1_l. by case_bool_decide.
Qed.

(** C8: construction fails with an error when the base directory is empty
    ("base directory is required") or cannot be made ("failed to create
    base directory"); otherwise it succeeds, the base directory is there
    afterwards, and the presign expiration is the configured one, or one
    hour when none is configured. *)
Theorem New_outcomes (config : Config) (os : OS) :
  (BaseDir config = "" →
     New config os = (os, Err (errors_New "base directory is required"))) ∧
  (∀ os' err, BaseDir config ≠ "" → MkdirAll os (BaseDir config) = (os', Some err) →
     New config os = (os', Err (fmt_Errorf "failed to create base directory" err))) ∧
  (∀ os', BaseDir config ≠ "" → MkdirAll os (BaseDir config) = (os', None) →
     ∃ b, New config os = (os', Ok b) ∧
          baseDir b = BaseDir config ∧ Stat os' (baseDir b) = Ok Directory ∧
          (PresignExpires config = 0 → presignExpires b = Hour) ∧
          (PresignExpires config ≠ 0 → presignExpires b = PresignExpires config)).
Proof.
  split_and!.
  - intros Hbase. unfold New. by rewrite bool_decide_true.
  - intros os' err Hbase Hmk. unfold New. rewrite bool_decide_false by done. by rewrite Hmk.
  - intros os' Hbase Hmk. unfold New. rewrite bool_decide_false by done. rewrite Hmk.
    rewrite Z.mul_1_l. eexists. split; [done|].
    split_and!.
    + by case_bool_decide.
    + case_bool_decide; by apply (MkdirAll_None os).
    + intros Hzero. by repeat case_bool_decide.
    + intros Hset. by repeat case_bool_decide.
Qed.

(** ** Signatures and URLs *)

(** C5: a backend constructed without a secret key has no signer, and its
    [ValidateUploadSignature] returns nil for every key, signature and
    expiration. *)
Theorem open_mode_accepts_all (config : Config) (os os' : OS) (b : Backend) :
  SignatureSecretKey config = "" →
  New config os = (os', Ok b) →
  signer b = None ∧
  ∀ (now : Z) (objectKey signature : string) (expiresAt : Z),
    ValidateUploadSignature b now objectKey signature expiresAt = None.
Proof.
  intros Hkey (_ & _ & _ & _ & _ & Hsigner)%New_Ok.
  rewrite bool_decide_false in Hsigner by (by intros []).
  split; [done|]. intros. unfold ValidateUploadSignature. by rewrite Hsigner.
Qed.

(** C6, amended: with a URL prefix and a signer, [GetUploadURL key] is
    what the signer's [SignURLWithBase] gives for the prefix, the method
    PUT, the path /upload/key and the presign expiration of the backend,
    be it a URL or the signer's error.  A URL it returns is
    prefix/upload/key?signature=...&expires=..., with the signature for PUT
    and /upload/key and the expiration in Unix seconds; it does return one
    when the signer is enabled and the expiration positive, and none when
    the expiration is not positive.  With a prefix and no signer it is the
    unsigned prefix/upload/key. *)
Theorem GetUploadURL_shape (b : Backend) (now : Z) (objectKey : string) :
  urlPrefix b ≠ "" →
  (∀ s, signer b = Some s →
     GetUploadURL b now objectKey
       = SignURLWithBase s now (urlPrefix b) "PUT" ("/upload/" +:+ objectKey)
           (presignExpires b) ∧
     (∀ url, GetUploadURL b now objectKey = (url, None) →
        url = urlPrefix b +:+ "/upload/" +:+ objectKey +:+ "?signature="
                +:+ Sign s "PUT" ("/upload/" +:+ objectKey) (now + presignExpires b)
                +:+ "&expires=" +:+ pretty (Unix (now + presignExpires b))) ∧
     (IsEnabled s = true → 0 < presignExpires b →
        ∃ url, GetUploadURL b now objectKey = (url, None)) ∧
     (presignExpires b ≤ 0 →
        GetUploadURL b now objectKey = ("", Some ErrInvalidExpiration))) ∧
  (signer b = None →
     GetUploadURL b now objectKey = (urlPrefix b +:+ "/upload/" +:+ objectKey, None)).
Proof.
  intros Hprefix. unfold GetUploadURL. rewrite bool_decide_false by done.
  split; [|by intros ->].
  intros s ->. split; [done|]. unfold SignURLWithBase. split_and!.
  - intros url. case_bool_decide; [done|].
    destruct (IsEnabled s); [|done]. by intros [= <-].
  - intros Henabled Hpos. rewrite bool_decide_false by lia. rewrite Henabled. eauto.
  - intros Hneg. by rewrite bool_decide_true.
Qed.

(** C7: without a URL prefix [GetUploadURL], [GetDownloadURL] and
    [GetPreviewURL] return the empty string and the error that a direct
    upload, download or preview is required. *)
Theorem no_prefix_no_url (b : Backend) (now : Z) (objectKey downloadFilename : string) :
  urlPrefix b = "" →
  GetUploadURL b now objectKey
    = ("", Some (errors_New "direct upload required for filesystem backend")) ∧
  GetDownloadURL b objectKey downloadFilename
    = ("", Some (errors_New "direct download required for filesystem backend")) ∧
  GetPreviewURL b objectKey
    = ("", Some (errors_New "direct preview required for filesystem backend")).
Proof.
  intros Hprefix. unfold GetUploadURL, GetDownloadURL, GetPreviewURL.
  by rewrite !bool_decide_true.
Qed.

(** C9: [UploadWithParams reader params] is [Upload] of the key in
    [params]: state and result are the same, and the content type and the
    attributes in [params] play no part. *)
Theorem UploadWithParams_is_Upload (b : Backend) (os : OS) (reader : Reader)
    (params : UploadParams) :
  UploadWithParams b os reader params = Upload b os (ObjectKey params) reader ∧
  ∀ (mime : string) (attrs : gmap string string),
    UploadWithParams b os reader (mkUploadParams (ObjectKey params) mime attrs)
    = UploadWithParams b os reader params.
Proof. done. Qed.

(** C10, amended: with a URL prefix, [GetDownloadURL] and [GetPreviewURL]
    succeed for every key; [GetUploadURL] succeeds for every key when there
    is no signer, and with a signer it returns what [SignURLWithBase]
    returns, which is a success when the signer is enabled and the presign
    expiration is positive.  None of the three reads the file system (none
    takes it as an argument), and none fails with "object not found". *)
Theorem url_issuance (b : Backend) (now : Z) (objectKey downloadFilename : string) :
  urlPrefix b ≠ "" →
  (GetDownloadURL b objectKey downloadFilename).2 = None ∧
  (GetPreviewURL b objectKey).2 = None ∧
  (signer b = None → (GetUploadURL b now objectKey).2 = None) ∧
  (∀ s, signer b = Some s →
     GetUploadURL b now objectKey
       = SignURLWithBase s now (urlPrefix b) "PUT" ("/upload/" +:+ objectKey)
           (presignExpires b) ∧
     (IsEnabled s = true → 0 < presignExpires b →
      (GetUploadURL b now objectKey).2 = None)) ∧
  (GetUploadURL b now objectKey).2 ≠ Some (errors_New "object not found").
Proof.
  intros Hprefix. unfold GetDownloadURL, GetPreviewURL, GetUploadURL.
  rewrite !bool_decide_false by done.
  split_and!.
  - by case_bool_decide.
  - done.
  - by intros ->.
  - intros s ->. split; [done|]. intros Henabled Hpos.
    unfold SignURLWithBase. rewrite bool_decide_false by lia. by rewrite Henabled.
  - destruct (signer b) as [s|]; [|done].
    unfold SignURLWithBase. case_bool_decide; [done|]. by destruct (IsEnabled s).
Qed.

(** ** Paths as text *)

Lemma segments_app_sep a b : segments (a +:+ "/" +:+ b) = segments a ++ segments b.
Proof.
  induction a as [|c a IH]; simpl; [done|].
  destruct (isSep c); [by rewrite IH|].
  rewrite IH. pose proof (segments_nonempty a). by destruct (segments a).
Qed.

Lemma segments_no_sep s : Forall (λ seg, has_sep seg = false) (segments s).
Proof.
  induction s as [|c s IH]; simpl; [by repeat constructor|].
  destruct (isSep c) eqn:Hc; [by constructor|].
  destruct (segments s) as [|seg segs]; [by repeat constructor; simpl; rewrite Hc|].
  inversion_clear IH. constructor; [|done]. simpl. by rewrite Hc.
Qed.

Lemma segments_plain seg : has_sep seg = false → segments seg = [seg].
Proof.
  induction seg as [|c seg IH]; simpl; [done|].
  intros [Hc Hseg]%orb_false_iff. rewrite Hc. by rewrite IH.
Qed.

Lemma segments_join segs :
  segs ≠ [] → Forall (λ seg, has_sep seg = false) segs →
  segments (join_segments segs) = segs.
Proof.
  induction segs as [|seg segs IH]; [done|]. intros _ Hall.
  inversion_clear Hall as [|? ? Hseg Hsegs].
  destruct segs as [|seg' segs]; [by apply segments_plain|].
  change (join_segments (seg :: seg' :: segs))
    with (seg +:+ "/" +:+ join_segments (seg' :: segs)).
  rewrite segments_app_sep, segments_plain by done. by rewrite IH.
Qed.

Lemma rooted_app a b : a ≠ "" → rooted (a +:+ b) = rooted a.
Proof. by destruct a. Qed.

Lemma rooted_plain seg : has_sep seg = false → rooted seg = false.
Proof. destruct seg as [|c seg]; simpl; [done|]. by intros [? ?]%orb_false_iff. Qed.

Lemma rooted_join seg segs :
  has_sep seg = false → seg ≠ "" → rooted (join_segments (seg :: segs)) = false.
Proof.
  intros Hseg Hne. destruct segs as [|seg' segs]; [by apply rooted_plain|].
  change (join_segments (seg :: seg' :: segs))
    with (seg +:+ "/" +:+ join_segments (seg' :: segs)).
  rewrite rooted_app by done. by apply rooted_plain.
Qed.

Lemma join_segments_empty seg segs : seg ≠ "" → join_segments (seg :: segs) ≠ "".
Proof. destruct seg; [done|]. by destruct segs. Qed.

Lemma clean_segments_kept is_rooted segs : ∀ out,
  Forall kept out → Forall (λ seg, has_sep seg = false) segs →
  Forall kept (clean_segments is_rooted out segs).
Proof.
  induction segs as [|seg segs IH]; intros out Hout Hsegs; simpl; [done|].
  inversion_clear Hsegs as [|? ? Hseg Hsegs'].
  destruct (is_skip seg) eqn:Hskip; [by apply IH|].
  assert (kept seg) as Hkept by done.
  destruct (is_dotdot seg).
  - destruct out as [|top out].
    + destruct is_rooted; apply IH; auto.
    + inversion_clear Hout. destruct (is_dotdot top); apply IH; auto.
  - apply IH; auto.
Qed.

Lemma kept_nonempty seg : kept seg → seg ≠ "".
Proof. by intros [Hskip _] ->. Qed.

(** ** Paths by their text and paths by resolution *)

Lemma lex_walk_app loc segs1 segs2 :
  lex_walk loc (segs1 ++ segs2) = lex_walk (lex_walk loc segs1) segs2.
Proof. apply foldl_app. Qed.

Lemma lex_walk_cons loc seg segs :
  lex_walk loc (seg :: segs) = lex_walk (lex_step loc seg) segs.
Proof. done. Qed.

Lemma parent_snoc loc (seg : string) : parent (loc ++ [seg]) = loc.
Proof. apply removelast_last. Qed.

(** What [Clean] does to the elements does not change where they lead. *)
Lemma clean_segments_lex is_rooted loc0 segs : ∀ out,
  (is_rooted = true → loc0 = []) → Forall (λ seg, is_skip seg = false) out →
  lex_walk loc0 (rev (clean_segments is_rooted out segs))
  = lex_walk (lex_walk loc0 (rev out)) segs.
Proof.
  induction segs as [|seg segs IH]; intros out Hroot Hout; [done|].
  rewrite lex_walk_cons. simpl clean_segments.
  assert (∀ out', Forall (λ seg, is_skip seg = false) out' → is_skip seg = false →
            lex_walk loc0 (rev (clean_segments is_rooted (seg :: out') segs))
            = lex_walk (lex_step (lex_walk loc0 (rev out')) seg) segs) as Hpush.
  { intros out' Hout' Hskip. rewrite IH by auto. simpl. by rewrite lex_walk_app. }
  destruct (is_skip seg) eqn:Hskip.
  { rewrite IH by done. unfold lex_step. by rewrite Hskip. }
  destruct (is_dotdot seg) eqn:Hdd; [|by apply Hpush].
  destruct out as [|top out].
  - destruct is_rooted; [|by apply Hpush].
    rewrite IH by done. simpl. unfold lex_step. rewrite Hskip, Hdd. by rewrite Hroot.
  - inversion_clear Hout as [|? ? Htop Hout'].
    destruct (is_dotdot top) eqn:Htopdd; [apply Hpush; auto|].
    rewrite IH by done. simpl. rewrite lex_walk_app. simpl.
    unfold lex_step. rewrite Hskip, Hdd, Htop, Htopdd. by rewrite parent_snoc.
Qed.

Lemma Clean_cases path :
  let out := rev (clean_segments (rooted path) [] (segments path)) in
  Forall kept out ∧
  (∀ loc0, (rooted path = true → loc0 = []) →
     lex_walk loc0 out = lex_walk loc0 (segments path)).
Proof.
  intros out. split.
  - apply Forall_rev, clean_segments_kept; [constructor|apply segments_no_sep].
  - intros loc0 Hroot. unfold out. rewrite clean_segments_lex; [done|done|constructor].
Qed.

Lemma kept_has_sep segs : Forall kept segs → Forall (λ seg, has_sep seg = false) segs.
Proof. intros Hkept. eapply Forall_impl; [done|]. by intros seg [_ ?]. Qed.

Lemma rooted_Clean path : rooted (Clean path) = rooted path.
Proof.
  unfold Clean. destruct (Clean_cases path) as (Hkept & _).
  destruct (rooted path) eqn:Hrooted; [done|].
  case_bool_decide; [done|].
  destruct (rev _) as [|seg segs]; [done|].
  inversion_clear Hkept as [|? ? [Hskip Hsep] _].
  apply rooted_join; [done|]. by intros ->.
Qed.

(** [Clean] does not change the location a path names. *)
Lemma locate_Clean wd path : locate wd (Clean path) = locate wd path.
Proof.
  unfold locate. rewrite rooted_Clean.
  unfold Clean. destruct (Clean_cases path) as (Hkept & Hlex).
  destruct (rooted path) eqn:Hrooted.
  - rewrite <-(Hlex []) by done.
    change (segments ("/" +:+ ?x)) with ("" :: segments x).
    destruct (rev _) as [|seg segs]; [done|].
    rewrite segments_join; [done|done|by apply kept_has_sep].
  - rewrite <-(Hlex wd) by done.
    destruct (rev _) as [|seg segs]; [done|].
    rewrite bool_decide_false.
    + rewrite segments_join; [done|done|by apply kept_has_sep].
    + apply join_segments_empty. inversion_clear Hkept. by apply kept_nonempty.
Qed.

(** Where the path of a key leads: to where the key leads from the base
    directory. *)
Lemma locate_Join wd base key :
  base ≠ "" →
  locate wd (Join base key) = lex_walk (locate wd base) (segments key).
Proof.
  intros Hbase. unfold Join. rewrite bool_decide_false by done.
  rewrite locate_Clean. unfold locate.
  rewrite rooted_app by done. by rewrite segments_app_sep, lex_walk_app.
Qed.

Lemma lex_walk_names segs : ∀ loc,
  ".." ∉ segs → lex_walk loc segs = loc ++ filter (λ seg, is_skip seg = false) segs.
Proof.
  induction segs as [|seg segs IH]; intros loc Hdd.
  { simpl. by rewrite app_nil_r. }
  apply not_elem_of_cons in Hdd as [Hseg Hsegs].
  rewrite lex_walk_cons, IH by done. unfold lex_step.
  rewrite filter_cons.
  destruct (is_skip seg) eqn:Hskip.
  - by rewrite decide_False by done.
  - rewrite decide_True by done.
    unfold is_dotdot. rewrite bool_decide_false by done. by rewrite <-app_assoc.
Qed.

Lemma step_dir_lex fs loc seg loc' :
  step_dir fs loc seg = Ok loc' → loc' = lex_step loc seg.
Proof.
  unfold step_dir, lex_step.
  destruct (is_skip seg); [congruence|].
  destruct (is_dotdot seg); by intros [-> _]%enter_Ok.
Qed.

Lemma walk_dirs_lex fs segs : ∀ loc loc',
  walk_dirs fs loc segs = Ok loc' → loc' = lex_walk loc segs.
Proof.
  induction segs as [|seg segs IH]; intros loc loc'; simpl; [congruence|].
  destruct (step_dir fs loc seg) as [loc1|e] eqn:Hstep; [|done]. simpl.
  apply step_dir_lex in Hstep as ->. apply IH.
Qed.

(** A path that resolves, resolves to the location it names. *)
Lemma resolve_locate os path loc :
  resolve os path = Ok loc → loc = locate (cwd os) path.
Proof.
  unfold resolve, locate. case_bool_decide; [done|]. intros Hres.
  rewrite (app_removelast_last "" (segments_nonempty path)), lex_walk_app.
  revert Hres.
  destruct (start os path) as [loc0|e] eqn:Hstart; [|done]. simpl.
  assert (loc0 = if rooted path then [] else cwd os) as <-.
  { revert Hstart. unfold start. destruct (rooted path); [congruence|].
    by intros [-> _]%enter_Ok. }
  destruct (walk_dirs (files os) loc0 _) as [loc1|e] eqn:Hwalk; [|done]. simpl.
  apply walk_dirs_lex in Hwalk as <-.
  unfold step_last. simpl. unfold lex_step at 1.
  destruct (is_skip _) eqn:Hskip; simpl.
  { unfold step_dir. rewrite Hskip. congruence. }
  destruct (is_dotdot _) eqn:Hdd.
  { intros Hstep%step_dir_lex. unfold lex_step in Hstep. by rewrite Hskip, Hdd in Hstep. }
  congruence.
Qed.

(** ** Writing over an object *)

Lemma mkdir_walk_existing fs segs : ∀ loc loc',
  walk_dirs fs loc segs = Ok loc' → mkdir_walk fs loc segs = (fs, None).
Proof.
  induction segs as [|seg segs IH]; intros loc loc'; simpl; [done|].
  destruct (step_dir fs loc seg) as [loc1|e] eqn:Hstep; [|done]. simpl.
  destruct (is_skip seg || is_dotdot seg) eqn:Hcase; [apply IH|].
  apply orb_false_iff in Hcase as [Hskip Hdd].
  unfold step_dir in Hstep. rewrite Hskip, Hdd in Hstep.
  apply enter_Ok in Hstep as [-> ->]. apply IH.
Qed.

(** The directories on a cleaned path are directories on the path. *)
Lemma clean_segments_walk fs is_rooted loc0 segs : ∀ out cur loc,
  (is_rooted = true → loc0 = []) → Forall (λ seg, is_skip seg = false) out →
  walk_dirs fs loc0 (rev out) = Ok cur → walk_dirs fs cur segs = Ok loc →
  walk_dirs fs loc0 (rev (clean_segments is_rooted out segs)) = Ok loc.
Proof.
  induction segs as [|seg segs IH]; intros out cur loc Hroot Hout Hcur; simpl.
  { by intros [= <-]. }
  destruct (step_dir fs cur seg) as [cur'|e] eqn:Hstep; [|done]. simpl. intros Hwalk.
  assert (∀ out', Forall (λ seg, is_skip seg = false) out' → is_skip seg = false →
            walk_dirs fs loc0 (rev out') = Ok cur →
            walk_dirs fs loc0 (rev (clean_segments is_rooted (seg :: out') segs)) = Ok loc)
    as Hpush.
  { intros out' Hout' Hskip Hcur'. apply (IH _ cur'); [done|auto| |done].
    simpl. rewrite walk_dirs_app, Hcur'. simpl. by rewrite Hstep. }
  destruct (is_skip seg) eqn:Hskip.
  { apply (IH _ cur'); [done..| |done]. unfold step_dir in Hstep. rewrite Hskip in Hstep.
    congruence. }
  destruct (is_dotdot seg) eqn:Hdd; [|by apply Hpush].
  destruct out as [|top out].
  - destruct is_rooted; [|by apply Hpush].
    apply (IH _ cur'); [done..| |done]. simpl in *. rewrite Hroot in * by done.
    injection Hcur as <-. unfold step_dir in Hstep. rewrite Hskip, Hdd in Hstep.
    by apply enter_Ok in Hstep as [-> _].
  - inversion_clear Hout as [|? ? Htop Hout'].
    destruct (is_dotdot top) eqn:Htopdd; [apply Hpush; auto|].
    apply (IH _ cur'); [done..| |done].
    simpl in Hcur. rewrite walk_dirs_app in Hcur.
    destruct (walk_dirs fs loc0 (rev out)) as [loc1|e]; [|done]. simpl in Hcur.
    destruct (step_dir fs loc1 top) as [loc2|e] eqn:Htopstep; [|done].
    simpl in Hcur. injection Hcur as ->.
    unfold step_dir in Htopstep, Hstep.
    rewrite Htop, Htopdd in Htopstep. rewrite Hskip, Hdd in Hstep.
    apply enter_Ok in Htopstep as [-> _]. rewrite parent_snoc in Hstep.
    by apply enter_Ok in Hstep as [-> _].
Qed.

Lemma walk_dirs_Clean fs loc0 path loc :
  (rooted path = true → loc0 = []) →
  walk_dirs fs loc0 (segments path) = Ok loc →
  walk_dirs fs loc0 (segments (Clean path)) = Ok loc.
Proof.
  intros Hroot Hwalk.
  pose proof (clean_segments_walk fs (rooted path) loc0 (segments path) [] loc0 loc
                Hroot (Forall_nil_2 _) eq_refl Hwalk) as Hclean.
  unfold Clean. destruct (Clean_cases path) as (Hkept & _).
  destruct (rooted path) eqn:Hrooted.
  - change (segments ("/" +:+ ?x)) with ("" :: segments x).
    destruct (rev _) as [|seg segs]; [done|].
    rewrite segments_join; [done|done|by apply kept_has_sep].
  - destruct (rev _) as [|seg segs]; [done|].
    rewrite bool_decide_false.
    + rewrite segments_join; [done|done|by apply kept_has_sep].
    + apply join_segments_empty. inversion_clear Hkept. by apply kept_nonempty.
Qed.

Lemma Clean_nonempty path : Clean path ≠ "".
Proof.
  unfold Clean. destruct (rooted path); [done|]. by case_bool_decide.
Qed.

Lemma up_to_last_sep_plain path : has_sep path = false → up_to_last_sep path = "".
Proof.
  induction path as [|c path IH]; simpl; [done|].
  intros [Hc Hpath]%orb_false_iff. by rewrite Hpath, Hc.
Qed.

Lemma segments_has_sep path :
  has_sep path = true → ∃ seg seg' segs, segments path = seg :: seg' :: segs.
Proof.
  induction path as [|c path IH]; simpl; [done|].
  pose proof (segments_nonempty path) as Hne.
  destruct (isSep c); simpl.
  - intros _. destruct (segments path) as [|seg segs]; [done|]. eauto.
  - intros (seg & seg' & segs & ->)%IH. eauto.
Qed.

Lemma segments_up_to_last_sep path :
  has_sep path = true →
  segments (up_to_last_sep path) = removelast (segments path) ++ [""].
Proof.
  induction path as [|c path IH]; simpl; [done|].
  destruct (has_sep path) eqn:Hpath.
  - intros _. simpl. rewrite IH by done.
    destruct (segments_has_sep _ Hpath) as (seg & seg' & segs & ->).
    by destruct (isSep c).
  - rewrite orb_false_r. intros Hc. rewrite Hc. simpl. rewrite Hc.
    by rewrite segments_plain.
Qed.

Lemma rooted_up_to_last_sep path :
  has_sep path = true → rooted (up_to_last_sep path) = rooted path.
Proof.
  destruct path as [|c path]; simpl; [done|].
  destruct (has_sep path); [done|]. rewrite orb_false_r. intros Hc. by rewrite Hc.
Qed.

Lemma rooted_has_sep path : rooted path = true → has_sep path = true.
Proof. destruct path as [|c path]; simpl; [done|]. by intros ->. Qed.

(** Where a path resolves, its directory is there already: [MkdirAll] of
    [Dir path] succeeds and makes nothing. *)
Lemma MkdirAll_Dir os path loc :
  resolve os path = Ok loc → MkdirAll os (Dir path) = (os, None).
Proof.
  unfold resolve. case_bool_decide; [done|].
  destruct (start os path) as [loc0|e] eqn:Hstart; [|done]. simpl.
  destruct (walk_dirs (files os) loc0 _) as [loc1|e] eqn:Hwalk; [|done]. simpl.
  intros _. unfold MkdirAll, Dir.
  rewrite bool_decide_false by apply Clean_nonempty.
  assert (start os (Clean (up_to_last_sep path)) = Ok loc0 ∧
          ∃ loc', walk_dirs (files os) loc0 (segments (Clean (up_to_last_sep path)))
                  = Ok loc') as [-> [loc' Hdir]].
  { destruct (has_sep path) eqn:Hsep.
    - split.
      + revert Hstart. unfold start. by rewrite rooted_Clean, rooted_up_to_last_sep.
      + exists loc1. apply walk_dirs_Clean.
        * rewrite rooted_up_to_last_sep by done. unfold start in Hstart.
          intros Hrooted. rewrite Hrooted in Hstart. congruence.
        * rewrite segments_up_to_last_sep, walk_dirs_app, Hwalk by done. done.
    - rewrite up_to_last_sep_plain by done. split; [|by exists loc0].
      revert Hstart. unfold start.
      destruct (rooted path) eqn:Hrooted; [|done].
      apply rooted_has_sep in Hrooted. congruence. }
  rewrite (mkdir_walk_existing _ _ _ _ Hdir). by destruct os.
Qed.

(** A key that holds an object can always be written again. *)
Lemma Upload_occupied b os k data reader :
  Download b os k = Ok (File data) → r_err reader = None →
  ∃ os', Upload b os k reader = (os', None).
Proof.
  unfold Download, Open.
  destruct (Stat os _) as [n|e] eqn:Hstat; [|by destruct (IsNotExist e)].
  intros [= ->] Herr. apply Stat_Ok in Hstat as (loc & Hres & Hnode).
  unfold Upload. rewrite (MkdirAll_Dir _ _ _ Hres).
  unfold Create. rewrite Hres, Hnode. unfold Copy, copy_error. rewrite Herr. eauto.
Qed.

(** ** Keys and the base directory *)

Lemma key_location b os key loc :
  baseDir b ≠ "" → resolve os (Join (baseDir b) key) = Ok loc →
  loc = lex_walk (locate (cwd os) (baseDir b)) (segments key).
Proof. intros Hbase ->%resolve_locate. by apply locate_Join. Qed.

(** C1, amended: a key is not rejected for its [..] elements.  The four
    operations work on the path [Join baseDir key], which names the
    location reached from the base directory by following the elements of
    the key, [..] leading to the parent.  When no element of the key is
    [..], that location is the base directory followed by the names in the
    key, at or below the base directory, and it is the node that
    [Download] and [GetObjectMeta] read, [Upload] writes and [Delete]
    removes. *)
Theorem key_stays_below_base (b : Backend) (os : OS) (key : string) :
  baseDir b ≠ "" →
  (∀ loc, resolve os (Join (baseDir b) key) = Ok loc →
     loc = lex_walk (locate (cwd os) (baseDir b)) (segments key)) ∧
  (".." ∉ segments key →
     lex_walk (locate (cwd os) (baseDir b)) (segments key)
       = locate (cwd os) (baseDir b) ++ names key ∧
     (∀ file, Download b os key = Ok file →
        node_at (files os) (locate (cwd os) (baseDir b) ++ names key) = Some file) ∧
     (∀ meta, GetObjectMeta b os key = Ok meta →
        ∃ info, node_at (files os) (locate (cwd os) (baseDir b) ++ names key) = Some info ∧
                Size meta = FileSize info) ∧
     (∀ reader os', Upload b os key reader = (os', None) →
        files os' !! (locate (cwd os) (baseDir b) ++ names key)
          = Some (File (r_data reader))) ∧
     (∀ os', Delete b os key = (os', None) →
        is_Some (files os !! (locate (cwd os) (baseDir b) ++ names key)) ∧
        files os' !! (locate (cwd os) (baseDir b) ++ names key) = None)).
Proof.
  intros Hbase. split; [intros loc; by apply key_location|].
  intros Hdd. unfold names. rewrite <-(lex_walk_names _ _ Hdd).
  split_and!; [done|..].
  - intros file. unfold Download, Open.
    destruct (Stat os _) as [n|e] eqn:Hstat; [|by destruct (IsNotExist e)].
    apply Stat_Ok in Hstat as (loc & Hres & Hnode). intros [= <-].
    by rewrite <-(key_location _ _ _ _ Hbase Hres).
  - intros meta. unfold GetObjectMeta.
    destruct (Stat os _) as [n|e] eqn:Hstat; [|by destruct (IsNotExist e)].
    apply Stat_Ok in Hstat as (loc & Hres & Hnode). intros [= <-].
    exists n. by rewrite <-(key_location _ _ _ _ Hbase Hres).
  - intros reader os' (os1 & loc & Hmk & Hres & _ & -> & _)%Upload_None.
    apply MkdirAll_keeps in Hmk as [_ Hcwd].
    apply key_location in Hres; [|done]. rewrite Hcwd in Hres. rewrite <-Hres.
    simpl. apply lookup_insert_eq.
  - intros os' (loc & Hres & Hroot & Hnode & Hr & _)%Delete_None.
    apply key_location in Hres; [|done]. rewrite <-Hres. split; [done|].
    destruct (Hr loc) as [Hloc|Hloc]; rewrite !node_at_nonroot in Hloc by done;
      rewrite Hloc; [|done].
    apply lookup_delete_eq.
Qed.

(** ** Removal and the directory walk *)

Lemma entries_nil fs loc p :
  entries fs loc = [] → p ≠ [] → parent p = loc → fs !! p = None.
Proof.
  intros Hnil Hroot Hparent. destruct (fs !! p) as [n|] eqn:Hp; [|done].
  assert (List.last p "" ∈ entries fs loc) as Hin; [|by rewrite Hnil in Hin; inversion Hin].
  apply list_elem_of_omap. exists (p, n). split; [by apply elem_of_map_to_list|].
  simpl. by rewrite bool_decide_true.
Qed.

Lemma Remove_Some os path os' e : Remove os path = (os', Some e) → os' = os.
Proof.
  unfold Remove.
  destruct (resolve os path) as [loc|?]; [|congruence].
  destruct (is_skip _); [congruence|]. destruct (is_dotdot _); [congruence|].
  destruct (node_at _ _) as [[?|]|]; [done| |congruence].
  destruct (entries _ _); [done|congruence].
Qed.

(** What [Remove] removed: a file, or a directory without entries. *)
Lemma Remove_cases os path os' :
  Remove os path = (os', None) →
  ∃ loc, resolve os path = Ok loc ∧ loc ≠ [] ∧
         os' = mkOS (delete loc (files os)) (cwd os) ∧
         ((∃ data, files os !! loc = Some (File data)) ∨
          (files os !! loc = Some Directory ∧ entries (files os) loc = [])).
Proof.
  intros Hrm. destruct (Remove_None _ _ _ Hrm) as (loc & Hres & Hroot & _ & ->).
  exists loc. split_and!; [done..|].
  revert Hrm. unfold Remove. rewrite Hres.
  destruct (is_skip _); [done|]. destruct (is_dotdot _); [done|].
  rewrite node_at_nonroot by done.
  destruct (files os !! loc) as [[data|]|]; [eauto| |done].
  destruct (entries _ _); [by right|done].
Qed.

Lemma ReadDir_Ok os path names' :
  ReadDir os path = Ok names' →
  ∃ loc, resolve os path = Ok loc ∧ node_at (files os) loc = Some Directory ∧
         names' = entries (files os) loc.
Proof.
  unfold ReadDir. destruct (resolve os path) as [loc|?]; [|done].
  destruct (node_at _ _) as [[?|]|] eqn:Hnode; [done| |done].
  intros [= <-]. eauto.
Qed.

Lemma cleanup_steps_pruned steps b : ∀ os dir, pruned os (cleanup_steps steps b os dir).
Proof.
  induction steps as [|steps IH]; intros os dir; simpl; [constructor|].
  case_bool_decide; [constructor|].
  destruct (ReadDir os dir) as [[|? ?]|e] eqn:Hread; try constructor.
  apply ReadDir_Ok in Hread as (loc & Hres & Hnode & Hnil).
  destruct (Remove os dir) as [os' [e|]] eqn:Hrm.
  { apply Remove_Some in Hrm as ->. constructor. }
  apply Remove_cases in Hrm as (loc' & Hres' & Hroot & -> & _).
  assert (loc' = loc) as -> by congruence.
  rewrite node_at_nonroot in Hnode by done.
  eapply pruned_step; [done..|apply IH].
Qed.

Lemma pruned_cwd os os' : pruned os os' → cwd os' = cwd os.
Proof. induction 1; [done|]. by rewrite IHpruned. Qed.

Lemma pruned_only_removes os os' : pruned os os' → only_removes (files os) (files os').
Proof.
  induction 1; [apply only_removes_refl|].
  eapply only_removes_trans; [apply only_removes_delete|done].
Qed.

(** The walk leaves every file where it is. *)
Lemma pruned_files os os' loc data :
  pruned os os' → files os !! loc = Some (File data) → files os' !! loc = Some (File data).
Proof.
  induction 1 as [|os loc' os' Hroot Hdir Hnil Hrest IH]; [done|].
  intros Hfile. apply IH. simpl. rewrite lookup_delete_ne; [done|]. congruence.
Qed.

(** The walk leaves every directory that keeps an entry. *)
Lemma pruned_parent os os' p :
  pruned os os' → p ≠ [] → is_Some (files os' !! p) →
  files os !! parent p = Some Directory → files os' !! parent p = Some Directory.
Proof.
  induction 1 as [|os loc os' Hroot Hdir Hnil Hrest IH]; [done|].
  intros Hp Hsome Hparent. apply IH; [done..|]. simpl.
  rewrite lookup_delete_ne; [done|]. intros ->.
  destruct Hsome as [n Hn].
  assert (files os !! p = Some n) as Hbefore.
  { destruct (pruned_only_removes _ _ Hrest p) as [Heq|Heq];
      rewrite !node_at_nonroot in Heq by done; simpl in Heq; [|congruence].
    rewrite Hn in Heq. symmetry in Heq. by apply lookup_delete_Some in Heq as [_ ?]. }
  by rewrite (entries_nil _ _ _ Hnil Hp eq_refl) in Hbefore.
Qed.

(** Every outcome of [Delete]: the object was not there, or could not be
    removed, and nothing changed; or the node of the key was removed and
    the walk followed. *)
Lemma Delete_cases b os k os' r :
  Delete b os k = (os', r) →
  (os' = os ∧ is_Some r) ∨
  (r = None ∧
   ∃ loc, resolve os (Join (baseDir b) k) = Ok loc ∧ loc ≠ [] ∧
          ((∃ data, files os !! loc = Some (File data)) ∨
           (files os !! loc = Some Directory ∧ entries (files os) loc = [])) ∧
          pruned (mkOS (delete loc (files os)) (cwd os)) os').
Proof.
  unfold Delete.
  destruct (match Stat os _ with Ok _ => false | Err err => IsNotExist err end).
  { intros [= <- <-]. left. eauto. }
  destruct (Remove os _) as [os1 [e|]] eqn:Hrm.
  { apply Remove_Some in Hrm as ->. intros [= <- <-]. left. eauto. }
  apply Remove_cases in Hrm as (loc & Hres & Hroot & -> & Hnode).
  intros [= <- <-]. right. split; [done|]. exists loc. split_and!; [done..|].
  apply cleanup_steps_pruned.
Qed.

(** ** What [Delete] does and does not do *)

(** X1: [Download], [GetObjectMeta] and [Delete] report a missing object
    together: one of them returns "object not found" exactly when the
    others do, and [Delete] then leaves the file system as it is. *)
Theorem not_found_together (b : Backend) (os : OS) (k : string) :
  (Download b os k = Err (errors_New "object not found") ↔
   GetObjectMeta b os k = Err (errors_New "object not found")) ∧
  (Download b os k = Err (errors_New "object not found") ↔
   Delete b os k = (os, Some (errors_New "object not found"))) ∧
  (∀ os', Delete b os k = (os', Some (errors_New "object not found")) → os' = os).
Proof.
  unfold Download, GetObjectMeta, Delete, Open.
  destruct (Stat os _) as [n|e] eqn:Hstat.
  { split_and!; [done| |].
    - split; [done|]. destruct (Remove os _) as [os1 [e|]]; done.
    - intros os'. destruct (Remove os _) as [os1 [e|]]; done. }
  destruct (IsNotExist e) eqn:Hne.
  { split_and!; [done|done|]. by intros os' [= <-]. }
  split_and!; [done| |].
  - split; [done|]. destruct (Remove os _) as [os1 [e'|]]; done.
  - intros os'. destruct (Remove os _) as [os1 [e'|]]; done.
Qed.

(** X2: a [Delete] that returns an error has changed nothing. *)
Theorem delete_error_changes_nothing (b : Backend) (os os' : OS) (k : string) (e : error) :
  Delete b os k = (os', Some e) → os' = os.
Proof. intros [[-> _]|[[=] _]]%Delete_cases. done. Qed.

(** X3: whatever [Delete] returns, every file other than the one the key
    names is still there with its bytes. *)
Theorem delete_keeps_other_files (b : Backend) (os os' : OS) (k : string)
    (r : option error) (loc : list string) (data : list byte) :
  Delete b os k = (os', r) →
  loc ≠ locate (cwd os) (Join (baseDir b) k) →
  files os !! loc = Some (File data) →
  files os' !! loc = Some (File data).
Proof.
  intros [[-> _]|[_ (target & Hres & _ & _ & Hpruned)]]%Delete_cases Hother Hfile; [done|].
  apply resolve_locate in Hres. subst target.
  eapply pruned_files; [done|]. simpl. by rewrite lookup_delete_ne.
Qed.

(** X4: whatever [Delete] returns, a directory that has an entry afterwards
    is still there: only directories without entries are removed. *)
Theorem delete_keeps_used_directories (b : Backend) (os os' : OS) (k : string)
    (r : option error) (p : list string) :
  Delete b os k = (os', r) →
  p ≠ [] → is_Some (files os' !! p) →
  files os !! parent p = Some Directory →
  files os' !! parent p = Some Directory.
Proof.
  intros [[-> _]|[_ (target & Hres & Hroot & Hnode & Hpruned)]]%Delete_cases Hp Hsome Hparent;
    [done|].
  eapply pruned_parent; [done..|]. simpl.
  rewrite lookup_delete_ne; [done|]. intros ->.
  destruct Hnode as [[data Hfile]|[_ Hnil]]; [congruence|].
  destruct Hsome as [n Hn].
  assert (files os !! p = Some n) as Hbefore.
  { destruct (pruned_only_removes _ _ Hpruned p) as [Heq|Heq];
      rewrite !node_at_nonroot in Heq by done; simpl in Heq; [|congruence].
    rewrite Hn in Heq. symmetry in Heq. by apply lookup_delete_Some in Heq as [_ ?]. }
  by rewrite (entries_nil _ _ _ Hnil Hp eq_refl) in Hbefore.
Qed.

(** ** What [Upload] does and does not do *)

Lemma only_adds_dirs_refl fs : only_adds_dirs fs fs.
Proof. intros loc. by left. Qed.

Lemma only_adds_dirs_trans fs1 fs2 fs3 :
  only_adds_dirs fs1 fs2 → only_adds_dirs fs2 fs3 → only_adds_dirs fs1 fs3.
Proof.
  intros H12 H23 loc.
  destruct (H23 loc) as [Heq|[Hnone Hdir]], (H12 loc) as [Heq'|[Hnone' Hdir']].
  - left. congruence.
  - right. split; congruence.
  - right. split; congruence.
  - congruence.
Qed.

Lemma only_adds_dirs_mkdir fs q : fs !! q = None → only_adds_dirs fs (<[q := Directory]> fs).
Proof.
  intros Hq loc. destruct (decide (q = loc)) as [<-|Hne].
  - right. by rewrite lookup_insert_eq.
  - left. by rewrite lookup_insert_ne.
Qed.

Lemma mkdir_walk_only_adds segs : ∀ fs loc fs' r,
  mkdir_walk fs loc segs = (fs', r) → only_adds_dirs fs fs'.
Proof.
  induction segs as [|seg segs IH]; intros fs loc fs' r; simpl.
  { intros [= <- _]. apply only_adds_dirs_refl. }
  destruct (is_skip seg || is_dotdot seg).
  { destruct (step_dir fs loc seg); [apply IH|]. intros [= <- _]. apply only_adds_dirs_refl. }
  destruct (node_at fs (loc ++ [seg])) as [[data|]|] eqn:Hnode.
  - intros [= <- _]. apply only_adds_dirs_refl.
  - apply IH.
  - intros Hrec. rewrite node_at_snoc in Hnode.
    eapply only_adds_dirs_trans; [by apply only_adds_dirs_mkdir|]. by eapply IH.
Qed.

Lemma MkdirAll_only_adds os path os' r :
  MkdirAll os path = (os', r) → only_adds_dirs (files os) (files os') ∧ cwd os' = cwd os.
Proof.
  unfold MkdirAll. case_bool_decide.
  { intros [= <- _]. split; [apply only_adds_dirs_refl|done]. }
  destruct (start os path) as [loc0|e].
  2: { intros [= <- _]. split; [apply only_adds_dirs_refl|done]. }
  destruct (mkdir_walk _ _ _) as [fs r'] eqn:Hwalk. intros [= <- _]. simpl.
  split; [by eapply mkdir_walk_only_adds|done].
Qed.

(** [MkdirAll] of a directory that is there makes nothing. *)
Lemma MkdirAll_again os path os' :
  MkdirAll os path = (os', None) → MkdirAll os' path = (os', None).
Proof.
  intros Hmk. destruct (MkdirAll_keeps _ _ _ _ Hmk) as [Hk Hcwd].
  revert Hmk. unfold MkdirAll. case_bool_decide as Hne; [done|].
  destruct (start os path) as [loc0|e] eqn:Hstart; [|done].
  destruct (mkdir_walk _ _ _) as [fs [e|]] eqn:Hwalk; [done|]. intros [= <-].
  assert (start (mkOS fs (cwd os)) path = Ok loc0) as ->.
  { revert Hstart. unfold start. simpl. destruct (rooted path); [done|].
    intros [-> Hd]%enter_Ok. apply enter_dir. by apply Hk. }
  simpl. apply mkdir_walk_None in Hwalk as [loc Hwalk].
  by rewrite (mkdir_walk_existing _ _ _ _ Hwalk).
Qed.

(** The result of [Upload] once the directory is made and the path of the
    file resolves to something that is not a directory. *)
Lemma Upload_at b os k r osm loc :
  MkdirAll os (Dir (Join (baseDir b) k)) = (osm, None) →
  resolve osm (Join (baseDir b) k) = Ok loc →
  node_at (files osm) loc ≠ Some Directory →
  Upload b os k r
  = (mkOS (<[loc := File (r_data r)]> (files osm)) (cwd osm),
     fmt_Errorf "failed to write file" <$> copy_error r).
Proof.
  intros Hmk Hres Hnode. unfold Upload. rewrite Hmk. unfold Create. rewrite Hres.
  destruct (node_at (files osm) loc) as [[data|]|]; [|done|];
    unfold Copy; simpl; rewrite insert_insert_eq; by destruct (copy_error r).
Qed.

(** Every outcome of [Upload]: directories were made, and then either
    nothing more happened or one file was written. *)
Lemma Upload_cases b os k r os' res :
  Upload b os k r = (os', res) →
  ∃ osm, only_adds_dirs (files os) (files osm) ∧ cwd osm = cwd os ∧
         (os' = osm ∨
          ∃ loc data, resolve osm (Join (baseDir b) k) = Ok loc ∧ loc ≠ [] ∧
                      os' = mkOS (<[loc := File data]> (files osm)) (cwd osm)).
Proof.
  unfold Upload.
  destruct (MkdirAll os _) as [osm r'] eqn:Hmk.
  apply MkdirAll_only_adds in Hmk as [Hadds Hcwd].
  exists osm. split; [done|]. split; [done|].
  destruct r' as [e|]; [left; congruence|].
  destruct (Create osm _) as [os2 [fd|e]] eqn:Hcreate.
  - apply Create_Ok in Hcreate as (Hres & Hnode & ->). right.
    exists fd, (r_data r). split; [done|]. split; [by intros ->|].
    revert H. unfold Copy. simpl. rewrite insert_insert_eq.
    destruct (copy_error r); congruence.
  - left. revert Hcreate H. unfold Create.
    destruct (resolve osm _) as [loc|?]; [|congruence].
    destruct (node_at _ _) as [[?|]|]; congruence.
Qed.

(** X5: whatever [Upload] returns, away from the file of the key it has
    changed no node and removed none; all it has done there is to make
    directories where there was nothing. *)
Theorem upload_changes_one_file (b : Backend) (os os' : OS) (k : string) (r : Reader)
    (res : option error) (loc : list string) :
  Upload b os k r = (os', res) →
  loc ≠ locate (cwd os) (Join (baseDir b) k) →
  files os' !! loc = files os !! loc ∨
  (files os !! loc = None ∧ files os' !! loc = Some Directory).
Proof.
  intros (osm & Hadds & Hcwd & [->|(target & data & Hres & _ & ->)])%Upload_cases Hother;
    [apply Hadds|].
  apply resolve_locate in Hres. rewrite Hcwd in Hres. subst target.
  simpl. rewrite lookup_insert_ne by done. apply Hadds.
Qed.

(** X6: when the reader fails over a key that holds an object, with an
    error other than [io.EOF] (which is the end of the stream), [Upload]
    returns "failed to write file" with the error of the reader, and the
    object is gone: the key now holds the bytes read before the error. *)
Theorem upload_failed_read_overwrites (b : Backend) (os : OS) (k : string)
    (old : list byte) (r : Reader) (e : error) :
  Download b os k = Ok (File old) → r_err r = Some e → e ≠ EOF →
  ∃ os', Upload b os k r = (os', Some (fmt_Errorf "failed to write file" e)) ∧
         Download b os' k = Ok (File (r_data r)).
Proof.
  unfold Download, Open.
  destruct (Stat os _) as [n|e'] eqn:Hstat; [|by destruct (IsNotExist e')].
  intros [= ->] Herr Heof. apply Stat_Ok in Hstat as (loc & Hres & Hnode).
  assert (copy_error r = Some e) as Hcopy.
  { unfold copy_error. rewrite Herr. by destruct e. }
  eexists. split.
  - rewrite (Upload_at b os k r os loc); [by rewrite Hcopy|by eapply MkdirAll_Dir|done|congruence].
  - assert (Stat (mkOS (<[loc := File (r_data r)]> (files os)) (cwd os)) (Join (baseDir b) k)
            = Ok (File (r_data r))) as ->; [|done].
    apply Stat_Ok. exists loc. split.
    + apply (resolve_keeps os); [|done..]. simpl. apply keeps_dirs_insert. congruence.
    + simpl. rewrite node_at_nonroot by (intros ->; simpl in Hnode; congruence).
      apply lookup_insert_eq.
Qed.

(** X7: the last [Upload] wins.  Uploading [p2] over a successful upload
    of [p1] succeeds and gives the state that uploading [p2] alone gives;
    uploading [p1] a second time changes nothing. *)
Theorem upload_last_write_wins (b : Backend) (os os1 : OS) (k : string)
    (p1 p2 : list byte) :
  Upload b os k (payload p1) = (os1, None) →
  (∃ os2, Upload b os1 k (payload p2) = (os2, None) ∧
          Upload b os k (payload p2) = (os2, None)) ∧
  Upload b os1 k (payload p1) = (os1, None).
Proof.
  intros (osm & loc & Hmk & Hres & Hnode & -> & _)%Upload_None. simpl.
  assert (loc ≠ []) as Hroot by (by intros ->).
  assert (∀ p, resolve (mkOS (<[loc := File p]> (files osm)) (cwd osm)) (Join (baseDir b) k)
               = Ok loc) as Hres'.
  { intros p. apply (resolve_keeps osm); [|done..]. simpl. by apply keeps_dirs_insert. }
  assert (∀ p q, Upload b (mkOS (<[loc := File p]> (files osm)) (cwd osm)) k (payload q)
                 = (mkOS (<[loc := File q]> (files osm)) (cwd osm), None)) as Hagain.
  { intros p q.
    rewrite (Upload_at b _ k (payload q)
               (mkOS (<[loc := File p]> (files osm)) (cwd osm)) loc);
      [|by eapply MkdirAll_Dir|done|].
    - simpl. by rewrite insert_insert_eq.
    - simpl. rewrite node_at_nonroot by done. by rewrite lookup_insert_eq. }
  split; [|apply Hagain].
  eexists. split; [apply Hagain|].
  by rewrite (Upload_at b os k (payload p2) osm loc).
Qed.

(** X8: what was uploaded can be deleted: after a successful [Upload],
    [Delete] of the same key succeeds, and the key is not found after. *)
Theorem upload_then_delete (b : Backend) (os os1 : OS) (k : string) (p : list byte) :
  Upload b os k (payload p) = (os1, None) →
  ∃ os2, Delete b os1 k = (os2, None) ∧
         Download b os2 k = Err (errors_New "object not found").
Proof.
  intros Hstat%Upload_Stat. simpl in Hstat.
  destruct (Delete_occupied b os1 k p) as [os2 Hdel].
  { unfold Download, Open. by rewrite Hstat. }
  exists os2. split; [done|].
  apply Delete_Stat in Hdel. unfold Download, Open. by rewrite Hdel.
Qed.

(** X9: a key that names a directory (the key of the base directory
    itself, the empty one, among them) cannot be written: [Upload] returns
    "failed to create file" and changes nothing. *)
Theorem upload_to_directory_fails (b : Backend) (os : OS) (k : string) (r : Reader) :
  Download b os k = Ok Directory →
  Upload b os k r = (os, Some (fmt_Errorf "failed to create file" (PathError EISDIR))).
Proof.
  unfold Download, Open.
  destruct (Stat os _) as [n|e'] eqn:Hstat; [|by destruct (IsNotExist e')].
  intros [= ->]. apply Stat_Ok in Hstat as (loc & Hres & Hnode).
  unfold Upload. rewrite (MkdirAll_Dir _ _ _ Hres). unfold Create. by rewrite Hres, Hnode.
Qed.

(** ** Metadata, construction and signatures *)


Lemma New_cases config os os' res :
  New config os = (os', res) →
  (os' = os ∧ BaseDir config = "") ∨
  (BaseDir config ≠ "" ∧ ∃ r, MkdirAll os (BaseDir config) = (os', r) ∧
     (r = None ↔ ∃ b, res = Ok b)).
Proof.
  unfold New. case_bool_decide as Hbase; [intros [= <- _]; by left|].
  destruct (MkdirAll os _) as [os1 [e|]] eqn:Hmk; intros [= <- <-]; right;
    (split; [done|]); eexists; (split; [done|]).
  - split; [done|]. by intros [b' ?].
  - split; [eauto|done].
Qed.

(** X11: [New] touches the file system only to make directories: whatever
    it returns, every node that was there is unchanged and every node that
    is new is a directory.  Constructing the same backend a second time
    succeeds again and changes nothing. *)
Theorem New_makes_directories_only (config : Config) (os os' : OS)
    (res : result error Backend) :
  New config os = (os', res) →
  (∀ loc, files os' !! loc = files os !! loc ∨
          (files os !! loc = None ∧ files os' !! loc = Some Directory)) ∧
  cwd os' = cwd os ∧
  (∀ b, res = Ok b → New config os' = (os', Ok b)).
Proof.
  intros Hnew. destruct (New_cases _ _ _ _ Hnew) as [[-> Hbase]|(Hbase & r & Hmk & Hres)].
  { split_and!; [by left|done|]. intros b ->. revert Hnew. unfold New.
    by rewrite bool_decide_true. }
  destruct (MkdirAll_only_adds _ _ _ _ Hmk) as [Hadds Hcwd].
  split_and!; [done|done|]. intros b ->.
  assert (r = None) as -> by (apply Hres; eauto).
  revert Hnew. unfold New. rewrite bool_decide_false by done.
  by rewrite Hmk, (MkdirAll_again _ _ _ Hmk).
Qed.

(** X12: a backend has a signer exactly when a secret key is configured;
    [IsSignedURLEnabled] is true exactly then, and the signer holds the
    configured key and the presign expiration of the backend. *)
Theorem signer_iff_secret_key (config : Config) (os os' : OS) (b : Backend) :
  New config os = (os', Ok b) →
  (GetSigner b = None ↔ SignatureSecretKey config = "") ∧
  (IsSignedURLEnabled b = true ↔ SignatureSecretKey config ≠ "") ∧
  (∀ s, GetSigner b = Some s →
     secretKey s = SignatureSecretKey config ∧ defaultExpiration s = presignExpires b).
Proof.
  intros (_ & _ & _ & _ & _ & Hsigner)%New_Ok.
  unfold GetSigner, IsSignedURLEnabled. rewrite Hsigner.
  case_bool_decide as Hkey.
  - split_and!; [done| |by intros s [= <-]].
    unfold IsEnabled. simpl. by rewrite bool_decide_true.
  - split_and!; done.
Qed.

(** X13: the signature in an upload URL is the one
    [ValidateUploadSignature] accepts: both are for the method PUT and the
    path /upload/key.  The URL [GetUploadURL] issues at [now] carries the
    signature [Sign] and the expiration [now] + the presign expiration in
    Unix seconds; with these, validation for the same key succeeds up to
    that second, fails as expired after it, and fails as invalid for any
    other signature. *)
Theorem upload_url_validates (b : Backend) (s : Signer) (now now' : Z) (key : string) :
  signer b = Some s → urlPrefix b ≠ "" → IsEnabled s = true → 0 < presignExpires b →
  GetUploadURL b now key
    = (urlPrefix b +:+ "/upload/" +:+ key +:+ "?signature="
         +:+ Sign s "PUT" ("/upload/" +:+ key) (now + presignExpires b)
         +:+ "&expires=" +:+ pretty (Unix (now + presignExpires b)), None) ∧
  (Unix now' ≤ Unix (now + presignExpires b) →
     ValidateUploadSignature b now' key
       (Sign s "PUT" ("/upload/" +:+ key) (now + presignExpires b))
       (Unix (now + presignExpires b)) = None) ∧
  (Unix now' > Unix (now + presignExpires b) →
     ∀ signature,
       ValidateUploadSignature b now' key signature (Unix (now + presignExpires b))
       = Some ErrExpired) ∧
  (Unix now' ≤ Unix (now + presignExpires b) →
     ∀ signature,
       signature ≠ Sign s "PUT" ("/upload/" +:+ key) (now + presignExpires b) →
       ValidateUploadSignature b now' key signature (Unix (now + presignExpires b))
       = Some ErrInvalidSignature).
Proof.
  intros Hsigner Hprefix Henabled Hpos.
  unfold GetUploadURL, ValidateUploadSignature, SignURLWithBase, Validate, Sign.
  rewrite Hsigner, Henabled. rewrite !bool_decide_false by (done || lia).
  split_and!; [done| | |].
  - intros Hle. rewrite bool_decide_false by lia. by rewrite bool_decide_true.
  - intros Hgt signature. by rewrite bool_decide_true.
  - intros Hle signature Hsig. rewrite bool_decide_false by lia.
    by rewrite bool_decide_false.
Qed.

(** ** Cleaned paths, element by element *)

Lemma Clean_render path :
  Clean path = render (rooted path) (clean_segments (rooted path) [] (segments path)).
Proof. done. Qed.

Lemma clean_segments_app is_rooted segs1 segs2 : ∀ out,
  clean_segments is_rooted out (segs1 ++ segs2)
  = clean_segments is_rooted (clean_segments is_rooted out segs1) segs2.
Proof.
  induction segs1 as [|seg segs1 IH]; intros out; simpl; [done|].
  destruct (is_skip seg); [apply IH|].
  destruct (is_dotdot seg); [|apply IH].
  destruct out as [|top out]; [destruct is_rooted; apply IH|].
  destruct (is_dotdot top); apply IH.
Qed.

Lemma is_dotdot_false seg : seg ≠ ".." → is_dotdot seg = false.
Proof. intros Hne. unfold is_dotdot. by rewrite bool_decide_false. Qed.

(** Without [..] the elements that are kept are the names, in order. *)
Lemma clean_segments_names is_rooted segs : ∀ out,
  ".." ∉ segs →
  clean_segments is_rooted out segs
  = rev (filter (λ seg, is_skip seg = false) segs) ++ out.
Proof.
  induction segs as [|seg segs IH]; intros out Hdd; simpl; [done|].
  apply not_elem_of_cons in Hdd as [Hseg Hsegs].
  rewrite filter_cons.
  destruct (is_skip seg) eqn:Hskip.
  - rewrite decide_False by done. by apply IH.
  - rewrite decide_True by done. rewrite is_dotdot_false by done.
    rewrite IH by done. simpl. by rewrite <-app_assoc.
Qed.

(** The path of a key, from the elements of the base directory and of the
    key. *)
Lemma Join_render base key :
  base ≠ "" →
  Join base key
  = render (rooted base)
      (clean_segments (rooted base)
         (clean_segments (rooted base) [] (segments base)) (segments key)).
Proof.
  intros Hbase. unfold Join. rewrite bool_decide_false by done.
  rewrite Clean_render, rooted_app by done.
  by rewrite segments_app_sep, clean_segments_app.
Qed.

(** X14: keys that differ only in empty and [.] elements (a/b, a//b,
    ./a/b/, /a/b) are one key: they have the same path, and [Download],
    [Upload] and [Delete] cannot tell them apart. *)
Theorem keys_with_same_names (b : Backend) (os : OS) (k1 k2 : string) :
  baseDir b ≠ "" → ".." ∉ segments k1 → ".." ∉ segments k2 → names k1 = names k2 →
  Join (baseDir b) k1 = Join (baseDir b) k2 ∧
  Download b os k1 = Download b os k2 ∧
  (∀ reader, Upload b os k1 reader = Upload b os k2 reader) ∧
  Delete b os k1 = Delete b os k2.
Proof.
  intros Hbase Hdd1 Hdd2 Hnames.
  assert (Join (baseDir b) k1 = Join (baseDir b) k2) as Hjoin.
  { rewrite !Join_render by done.
    rewrite (clean_segments_names _ (segments k1)), (clean_segments_names _ (segments k2))
      by done.
    unfold names in Hnames. by rewrite Hnames. }
  unfold Download, Upload, Delete. by rewrite Hjoin.
Qed.

Lemma append_assoc (a b c : string) : (a +:+ b) +:+ c = a +:+ b +:+ c.
Proof. induction a as [|ch a IH]; [done|]. exact (f_equal (String ch) IH). Qed.

Lemma join_segments_snoc segs x :
  segs ≠ [] → join_segments (segs ++ [x]) = join_segments segs +:+ "/" +:+ x.
Proof.
  induction segs as [|seg segs IH]; [done|]. intros _.
  destruct segs as [|seg' segs]; [done|].
  change (join_segments ((seg :: seg' :: segs) ++ [x]))
    with (seg +:+ "/" +:+ join_segments ((seg' :: segs) ++ [x])).
  rewrite IH by done.
  change (join_segments (seg :: seg' :: segs))
    with (seg +:+ "/" +:+ join_segments (seg' :: segs)).
  by rewrite !append_assoc.
Qed.

Lemma has_sep_app a b : has_sep (a +:+ "/" +:+ b) = true.
Proof. induction a as [|ch a IH]; simpl; [done|]. rewrite IH. apply orb_true_r. Qed.

Lemma up_to_last_sep_app a x :
  has_sep x = false → up_to_last_sep (a +:+ "/" +:+ x) = a +:+ "/".
Proof.
  intros Hx. induction a as [|ch a IH].
  - change (up_to_last_sep (String "/" x) = "/"). simpl. by rewrite Hx.
  - change (up_to_last_sep (String ch (a +:+ "/" +:+ x)) = String ch (a +:+ "/")).
    simpl. by rewrite has_sep_app, IH.
Qed.

(** Cleaning what [Clean] kept keeps all of it. *)
Lemma clean_segments_settled is_rooted segs : ∀ out,
  Forall (λ seg, is_skip seg = false) out →
  clean_segments is_rooted [] (rev out) = out →
  clean_segments is_rooted [] (rev (clean_segments is_rooted out segs))
  = clean_segments is_rooted out segs.
Proof.
  induction segs as [|seg segs IH]; intros out Hout Hset; simpl; [done|].
  destruct (is_skip seg) eqn:Hskip; [by apply IH|].
  assert (∀ out', Forall (λ seg, is_skip seg = false) out' →
            clean_segments is_rooted [] (rev out') = out' →
            clean_segments is_rooted out' [seg] = seg :: out' →
            clean_segments is_rooted [] (rev (clean_segments is_rooted (seg :: out') segs))
            = clean_segments is_rooted (seg :: out') segs) as Hpush.
  { intros out' Hout' Hset' Hstep. apply IH; [auto|].
    simpl. by rewrite clean_segments_app, Hset'. }
  destruct (is_dotdot seg) eqn:Hdd.
  - destruct out as [|top out].
    + destruct is_rooted; [by apply IH|].
      apply Hpush; [done..|]. simpl. by rewrite Hskip, Hdd.
    + inversion_clear Hout as [|? ? Htop Hout'].
      destruct (is_dotdot top) eqn:Htopdd.
      * apply Hpush; [auto|done|]. simpl. by rewrite Hskip, Hdd, Htopdd.
      * apply IH; [done|].
        simpl in Hset. rewrite clean_segments_app in Hset. simpl in Hset.
        rewrite Htop, Htopdd in Hset. congruence.
  - apply Hpush; [done..|]. simpl. by rewrite Hskip, Hdd.
Qed.

Lemma kept_skip segs : Forall kept segs → Forall (λ seg, is_skip seg = false) segs.
Proof. intros Hkept. eapply Forall_impl; [done|]. by intros seg [? _]. Qed.

Lemma render_single is_rooted x :
  kept x → render is_rooted [x] = if is_rooted then "/" +:+ x else x.
Proof.
  intros Hx%kept_nonempty. unfold render. simpl. destruct is_rooted; [done|].
  by rewrite bool_decide_false.
Qed.

Lemma render_snoc is_rooted x out :
  Forall kept out → out ≠ [] →
  render is_rooted (x :: out) = render is_rooted out +:+ "/" +:+ x.
Proof.
  intros Hout Hne. unfold render. simpl.
  assert (rev out ≠ []) as Hrev by (destruct out; [done|]; simpl; by destruct (rev out)).
  rewrite join_segments_snoc by done.
  destruct is_rooted; [done|].
  assert (join_segments (rev out) ≠ "") as Hjoin.
  { apply Forall_rev in Hout. destruct (rev out) as [|seg segs]; [done|].
    apply join_segments_empty. inversion_clear Hout. by apply kept_nonempty. }
  rewrite (bool_decide_false (join_segments (rev out) = "")) by done.
  rewrite bool_decide_false; [done|]. by destruct (join_segments (rev out)).
Qed.

Lemma rooted_render is_rooted out :
  Forall kept out → rooted (render is_rooted out) = is_rooted.
Proof.
  intros Hout. unfold render. destruct is_rooted; [done|].
  case_bool_decide; [done|].
  apply Forall_rev in Hout. destruct (rev out) as [|seg segs]; [done|].
  inversion_clear Hout as [|? ? [Hskip Hsep] _].
  apply rooted_join; [done|]. by intros ->.
Qed.

Lemma render_nonempty is_rooted out : render is_rooted out ≠ "".
Proof. unfold render. destruct is_rooted; [done|]. by case_bool_decide. Qed.

(** The elements of a cleaned text, but for the empty ones and [.]. *)
Lemma segments_render is_rooted out :
  Forall kept out →
  ∃ skipped, Forall (λ seg, is_skip seg = true) skipped ∧
    segments (render is_rooted out) = skipped ++ rev out ∧
    (out = [] → skipped ≠ []).
Proof.
  intros Hout. unfold render.
  assert (rev out ≠ [] → segments (join_segments (rev out)) = rev out) as Hsegs.
  { intros Hne. apply segments_join; [done|]. by apply kept_has_sep, Forall_rev. }
  assert (rev out ≠ [] → join_segments (rev out) ≠ "") as Hjoin.
  { intros Hne. apply Forall_rev in Hout. destruct (rev out) as [|seg segs]; [done|].
    apply join_segments_empty. inversion_clear Hout. by apply kept_nonempty. }
  destruct out as [|x out].
  - destruct is_rooted; simpl.
    + exists [""; ""]. split; [by repeat constructor|done].
    + exists ["."]. split; [by repeat constructor|done].
  - assert (rev (x :: out) ≠ []) as Hne by (simpl; by destruct (rev out)).
    destruct is_rooted.
    + exists [""]. split; [by repeat constructor|]. split; [|done].
      change (segments ("/" +:+ ?t)) with ("" :: segments t). by rewrite Hsegs.
    + exists []. split; [constructor|]. split; [|done].
      rewrite bool_decide_false by auto. by rewrite Hsegs.
Qed.

Lemma clean_segments_skipped is_rooted skipped : ∀ out,
  Forall (λ seg, is_skip seg = true) skipped →
  clean_segments is_rooted out skipped = out.
Proof.
  induction skipped as [|seg skipped IH]; intros out Hall; [done|].
  inversion_clear Hall as [|? ? Hseg Hrest]. simpl. rewrite Hseg. by apply IH.
Qed.

Lemma lex_walk_skipped skipped : ∀ loc,
  Forall (λ seg, is_skip seg = true) skipped → lex_walk loc skipped = loc.
Proof.
  induction skipped as [|seg skipped IH]; intros loc Hall; [done|].
  inversion_clear Hall as [|? ? Hseg Hrest]. rewrite lex_walk_cons.
  unfold lex_step. rewrite Hseg. by apply IH.
Qed.

Lemma clean_segments_render is_rooted out :
  Forall kept out → clean_segments is_rooted [] (rev out) = out →
  clean_segments is_rooted [] (segments (render is_rooted out)) = out.
Proof.
  intros Hout Hset.
  destruct (segments_render is_rooted out Hout) as (skipped & Hskipped & -> & _).
  rewrite clean_segments_app, (clean_segments_skipped _ skipped) by done. by rewrite Hset.
Qed.

(** A cleaned text is clean. *)
Lemma Clean_of_render is_rooted out :
  Forall kept out → clean_segments is_rooted [] (rev out) = out →
  Clean (render is_rooted out) = render is_rooted out.
Proof.
  intros Hout Hset. rewrite Clean_render, rooted_render by done.
  by rewrite clean_segments_render.
Qed.

(** The text [Clean] gives is made of kept elements, and is clean. *)
Lemma Clean_settled path :
  Forall kept (clean_segments (rooted path) [] (segments path)) ∧
  clean_segments (rooted path) [] (rev (clean_segments (rooted path) [] (segments path)))
  = clean_segments (rooted path) [] (segments path).
Proof.
  split.
  - apply clean_segments_kept; [constructor|apply segments_no_sep].
  - by apply clean_segments_settled.
Qed.

(** [Dir] takes the last element off a cleaned text. *)
Lemma Dir_render is_rooted x out :
  Forall kept (x :: out) → clean_segments is_rooted [] (rev out) = out →
  Dir (render is_rooted (x :: out)) = render is_rooted out.
Proof.
  intros Hall Hset. inversion_clear Hall as [|? ? Hx Hout].
  destruct out as [|y out].
  { rewrite render_single by done. unfold Dir.
    destruct Hx as [_ Hsep].
    destruct is_rooted.
    - pose proof (up_to_last_sep_app "" x Hsep) as Hup.
      change (up_to_last_sep ("/" +:+ x) = "/") in Hup. by rewrite Hup.
    - by rewrite up_to_last_sep_plain. }
  rewrite render_snoc by done. unfold Dir.
  rewrite up_to_last_sep_app by apply Hx.
  rewrite Clean_render, rooted_app by apply render_nonempty.
  change (render is_rooted (y :: out) +:+ "/")
    with (render is_rooted (y :: out) +:+ "/" +:+ "").
  rewrite segments_app_sep, clean_segments_app.
  rewrite rooted_render by done. by rewrite clean_segments_render.
Qed.

(** The location a cleaned text names. *)
Lemma locate_render wd is_rooted out :
  Forall kept out →
  locate wd (render is_rooted out) = lex_walk (if is_rooted then [] else wd) (rev out).
Proof.
  intros Hout. unfold locate. rewrite rooted_render by done.
  destruct (segments_render is_rooted out Hout) as (skipped & Hskipped & -> & _).
  by rewrite lex_walk_app, (lex_walk_skipped skipped).
Qed.

(** ** A key below an object *)

(** A path that names a file ends in the name of the file, below a
    directory. *)
Lemma resolve_file os path loc data :
  resolve os path = Ok loc → node_at (files os) loc = Some (File data) →
  ∃ loc0 dir,
    path ≠ "" ∧ start os path = Ok loc0 ∧
    walk_dirs (files os) loc0 (removelast (segments path)) = Ok dir ∧
    loc = dir ++ [List.last (segments path) ""] ∧
    is_skip (List.last (segments path) "") = false ∧
    is_dotdot (List.last (segments path) "") = false.
Proof.
  unfold resolve. case_bool_decide as Hne; [done|].
  destruct (start os path) as [loc0|e] eqn:Hstart; [|done]. simpl.
  destruct (walk_dirs (files os) loc0 _) as [dir|e] eqn:Hwalk; [|done]. simpl.
  unfold step_last. destruct (_ || _) eqn:Hcase.
  - intros Hstep Hnode. eapply step_dir_dir in Hstep; [congruence|].
    eapply walk_dirs_dir; [|done]. by eapply start_dir.
  - apply orb_false_iff in Hcase as [Hskip Hdd]. intros [= <-] Hnode.
    exists loc0, dir. done.
Qed.

Lemma mkdir_walk_app fs segs1 segs2 : ∀ loc dir,
  walk_dirs fs loc segs1 = Ok dir →
  mkdir_walk fs loc (segs1 ++ segs2) = mkdir_walk fs dir segs2.
Proof.
  induction segs1 as [|seg segs1 IH]; intros loc dir; simpl; [congruence|].
  destruct (step_dir fs loc seg) as [loc1|e] eqn:Hstep; [|done]. simpl.
  destruct (is_skip seg || is_dotdot seg) eqn:Hcase; [apply IH|].
  apply orb_false_iff in Hcase as [Hskip Hdd].
  unfold step_dir in Hstep. rewrite Hskip, Hdd in Hstep.
  apply enter_Ok in Hstep as [-> ->]. apply IH.
Qed.

(** No directory can be made where a file is. *)
Lemma MkdirAll_file os path loc data :
  resolve os path = Ok loc → node_at (files os) loc = Some (File data) →
  MkdirAll os path = (os, Some (PathError ENOTDIR)).
Proof.
  intros Hres Hnode.
  destruct (resolve_file _ _ _ _ Hres Hnode)
    as (loc0 & dir & Hne & Hstart & Hwalk & -> & Hskip & Hdd).
  unfold MkdirAll. rewrite bool_decide_false by done. rewrite Hstart.
  rewrite (app_removelast_last "" (segments_nonempty path)).
  rewrite (mkdir_walk_app _ _ _ _ _ Hwalk). simpl.
  rewrite Hskip, Hdd, Hnode. simpl. by destruct os.
Qed.

(** No path leads through a file. *)
Lemma resolve_below_file os path loc data x :
  resolve os path = Ok loc → node_at (files os) loc = Some (File data) →
  has_sep x = false →
  resolve os (path +:+ "/" +:+ x) = Err ENOTDIR.
Proof.
  intros Hres Hnode Hx.
  destruct (resolve_file _ _ _ _ Hres Hnode)
    as (loc0 & dir & Hne & Hstart & Hwalk & -> & Hskip & Hdd).
  unfold resolve. rewrite bool_decide_false by (by destruct path).
  assert (start os (path +:+ "/" +:+ x) = Ok loc0) as ->.
  { revert Hstart. unfold start. by rewrite rooted_app. }
  simpl. rewrite segments_app_sep, (segments_plain x) by done.
  rewrite removelast_last, last_last.
  rewrite (app_removelast_last "" (segments_nonempty path)), walk_dirs_app, Hwalk.
  simpl. unfold step_dir. rewrite Hskip, Hdd. unfold enter. by rewrite Hnode.
Qed.

Lemma clean_segments_name is_rooted out x :
  is_name x = true → clean_segments is_rooted out [x] = x :: out.
Proof.
  unfold is_name. intros [Hskip Hdd]%andb_true_iff. simpl.
  apply negb_true_iff in Hskip, Hdd. by rewrite Hskip, Hdd.
Qed.

(** The path of a key below a key that holds an object. *)
Lemma Join_below b os k data x :
  Download b os k = Ok (File data) → is_name x = true → has_sep x = false →
  ∃ loc, resolve os (Join (baseDir b) k) = Ok loc ∧
         node_at (files os) loc = Some (File data) ∧
         Join (baseDir b) (k +:+ "/" +:+ x) = Join (baseDir b) k +:+ "/" +:+ x ∧
         Dir (Join (baseDir b) (k +:+ "/" +:+ x)) = Join (baseDir b) k.
Proof.
  unfold Download, Open.
  destruct (Stat os _) as [n|e] eqn:Hstat; [|by destruct (IsNotExist e)].
  intros [= ->] Hname Hsep. apply Stat_Ok in Hstat as (loc & Hres & Hnode).
  exists loc. split; [done|]. split; [done|].
  assert (∃ q, q ≠ "" ∧ Join (baseDir b) k = Clean q ∧
               Join (baseDir b) (k +:+ "/" +:+ x) = Clean (q +:+ "/" +:+ x))
    as (q & Hq & Hjoin & Hjoin').
  { unfold Join. case_bool_decide as Hbase.
    - case_bool_decide as Hk.
      + revert Hres. unfold Join, resolve. by rewrite Hbase, Hk.
      + exists k. rewrite bool_decide_false by (by destruct k). done.
    - exists (baseDir b +:+ "/" +:+ k). split; [by destruct (baseDir b)|].
      split; [done|]. by rewrite append_assoc. }
  rewrite Hjoin in *. rewrite Hjoin'. clear Hjoin Hjoin'.
  destruct (Clean_settled q) as [Hkept Hset].
  assert (kept x) as Hx.
  { split; [|done]. unfold is_name in Hname. apply andb_true_iff in Hname as [Hskip _].
    by apply negb_true_iff in Hskip. }
  assert (Clean (q +:+ "/" +:+ x)
          = render (rooted q) (x :: clean_segments (rooted q) [] (segments q))) as ->.
  { rewrite Clean_render, rooted_app by done.
    rewrite segments_app_sep, (segments_plain x), clean_segments_app by done.
    by rewrite clean_segments_name. }
  rewrite Dir_render by (done || by constructor).
  split; [|done].
  rewrite render_snoc; [done|done|].
  intros Hnil. revert Hres. rewrite Clean_render, Hnil. intros Hres.
  destruct (resolve_file _ _ _ _ Hres Hnode) as (_ & _ & _ & _ & _ & _ & Hskip & _).
  revert Hskip. unfold render. simpl. by destruct (rooted q).
Qed.

(** X15: below a key that holds an object there is no key.  For a key
    k/x, with [k] the key of an object and [x] a name that makes a path
    the system takes, the operations fail, and not with "object not
    found": a component of the path is not a directory. *)
Theorem key_below_object (b : Backend) (os : OS) (k x : string) (data : list byte) :
  Download b os k = Ok (File data) → is_name x = true → has_sep x = false →
  valid_path (Join (baseDir b) (k +:+ "/" +:+ x)) = true →
  Download b os (k +:+ "/" +:+ x)
    = Err (fmt_Errorf "failed to open file" (PathError ENOTDIR)) ∧
  GetObjectMeta b os (k +:+ "/" +:+ x)
    = Err (fmt_Errorf "failed to get file info" (PathError ENOTDIR)) ∧
  (∀ reader, Upload b os (k +:+ "/" +:+ x) reader
     = (os, Some (fmt_Errorf "failed to create directory" (PathError ENOTDIR)))) ∧
  Delete b os (k +:+ "/" +:+ x)
    = (os, Some (fmt_Errorf "failed to delete file" (PathError ENOTDIR))).
Proof.
  intros Hdl Hname Hsep _.
  destruct (Join_below _ _ _ _ _ Hdl Hname Hsep) as (loc & Hres & Hnode & Hjoin & Hdir).
  pose proof (resolve_below_file _ _ _ _ x Hres Hnode Hsep) as Hbelow.
  rewrite <-Hjoin in Hbelow.
  unfold Download, GetObjectMeta, Upload, Delete, Open, Stat, Remove.
  rewrite Hbelow, Hdir. simpl.
  split_and!; [done|done| |done].
  intros reader. by rewrite (MkdirAll_file _ _ _ _ Hres Hnode).
Qed.

(** ** The base directory in cleaned form *)

Lemma is_name_kept segs :
  Forall (λ seg, is_name seg = true) segs → Forall (λ seg, has_sep seg = false) segs →
  Forall kept segs ∧ (".." ∉ segs) ∧ filter (λ seg, is_skip seg = false) segs = segs.
Proof.
  induction segs as [|seg segs IH]; intros Hnames Hseps.
  { split_and!; [constructor|by apply not_elem_of_nil|done]. }
  inversion_clear Hnames as [|? ? Hname Hnames'].
  inversion_clear Hseps as [|? ? Hsep Hseps'].
  destruct (IH Hnames' Hseps') as (Hkept & Hdd & Hfilter).
  unfold is_name in Hname. apply andb_true_iff in Hname as [Hskip Hdot].
  apply negb_true_iff in Hskip, Hdot.
  split_and!.
  - by constructor.
  - apply not_elem_of_cons. split; [|done]. intros <-.
    unfold is_dotdot in Hdot. by rewrite bool_decide_true in Hdot.
  - rewrite filter_cons, decide_True by done. by rewrite Hfilter.
Qed.

(** Names on top of a cleaned text give a cleaned text. *)
Lemma names_on_clean is_rooted out pre :
  Forall (λ seg, is_name seg = true) pre → Forall (λ seg, has_sep seg = false) pre →
  Forall kept out → clean_segments is_rooted [] (rev out) = out →
  Forall kept (rev pre ++ out) ∧
  clean_segments is_rooted [] (rev (rev pre ++ out)) = rev pre ++ out ∧
  clean_segments is_rooted out pre = rev pre ++ out.
Proof.
  intros Hnames Hseps Hout Hset.
  destruct (is_name_kept _ Hnames Hseps) as (Hkept & Hdd & Hfilter).
  assert (clean_segments is_rooted out pre = rev pre ++ out) as Hclean.
  { by rewrite clean_segments_names, Hfilter. }
  split_and!; [|by rewrite <-Hclean; apply clean_segments_settled; [apply kept_skip|]|done].
  apply Forall_app. split; [by apply Forall_rev|done].
Qed.

(** The walk from a directory below a cleaned base directory, named by
    the text of the base directory and names after it, stops at the base
    directory: it removes nothing but directories below it. *)
Lemma cleanup_steps_below b wd is_rooted out steps : ∀ pre os loc,
  baseDir b = render is_rooted out →
  Forall kept out → clean_segments is_rooted [] (rev out) = out →
  Forall (λ seg, is_name seg = true) pre → Forall (λ seg, has_sep seg = false) pre →
  cwd os = wd →
  (locate wd (baseDir b) `prefix_of` loc → loc = locate wd (baseDir b)) →
  files (cleanup_steps steps b os (render is_rooted (rev pre ++ out))) !! loc
  = files os !! loc.
Proof.
  induction steps as [|steps IH]; intros pre os loc Hbase Hout Hset Hnames Hseps Hwd Hloc;
    [done|].
  simpl. case_bool_decide as Hdir; [done|].
  destruct (ReadDir os _) as [[|? ?]|e]; try done.
  destruct (Remove os _) as [os' [e|]] eqn:Hrm; [by apply Remove_Some in Hrm as ->|].
  apply Remove_cases in Hrm as (target & Hres & _ & -> & _).
  destruct (names_on_clean is_rooted out pre) as (Hkept & Hset' & _); [done..|].
  apply resolve_locate in Hres. rewrite Hwd, locate_render in Hres by done.
  rewrite rev_app_distr, rev_involutive, lex_walk_app in Hres.
  rewrite <-(locate_render wd), <-Hbase in Hres by done.
  destruct (is_name_kept _ Hnames Hseps) as (_ & Hdd & Hfilter).
  rewrite lex_walk_names, Hfilter in Hres by done.
  destruct pre as [|x pre _] using rev_ind.
  { simpl in Hdir. congruence. }
  rewrite rev_app_distr in *. simpl in *.
  apply Forall_app in Hnames as [Hnames _]. apply Forall_app in Hseps as [Hseps _].
  inversion_clear Hkept as [|? ? Hx Hkept'].
  rewrite Dir_render.
  - rewrite IH; [|done..]. simpl. rewrite lookup_delete_ne; [done|].
    intros ->. subst loc.
    assert (pre ++ [x] = []) as Hnil; [|by destruct pre].
    apply (app_inv_head (locate wd (baseDir b))). rewrite app_nil_r.
    apply Hloc. by apply prefix_app_r.
  - by constructor.
  - by destruct (names_on_clean is_rooted out pre) as (_ & ? & _).
Qed.

(** X16: with the base directory configured in cleaned form and a key
    made of names (no empty element, no [.], no [..]), [Delete] stays
    below the base directory whatever it returns: the base directory and
    every node that is not below it are as before. *)
Theorem delete_stays_below_clean_base (b : Backend) (os os' : OS) (key : string)
    (r : option error) (loc : list string) :
  Clean (baseDir b) = baseDir b →
  Forall (λ seg, is_name seg = true) (segments key) →
  Delete b os key = (os', r) →
  (locate (cwd os) (baseDir b) `prefix_of` loc → loc = locate (cwd os) (baseDir b)) →
  files os' !! loc = files os !! loc.
Proof.
  intros Hclean Hnames Hdel Hloc.
  assert (baseDir b ≠ "") as Hbase by (rewrite <-Hclean; apply Clean_nonempty).
  destruct (Clean_settled (baseDir b)) as [Hout Hset].
  rewrite Clean_render in Hclean. symmetry in Hclean.
  pose proof (segments_no_sep key) as Hseps.
  destruct (is_name_kept _ Hnames Hseps) as (_ & Hdd & Hfilter).
  destruct (names_on_clean (rooted (baseDir b)) _ (segments key) Hnames Hseps Hout Hset)
    as (Hkept & Hset' & Hpush).
  assert (Join (baseDir b) key
          = render (rooted (baseDir b))
              (rev (segments key) ++
               clean_segments (rooted (baseDir b)) [] (segments (baseDir b)))) as Hjoin.
  { by rewrite Join_render, Hpush. }
  revert Hdel. unfold Delete. rewrite Hjoin.
  destruct (match Stat os _ with Ok _ => false | Err err => IsNotExist err end);
    [by intros [= <- _]|].
  destruct (Remove os _) as [os1 [e|]] eqn:Hrm.
  { apply Remove_Some in Hrm as ->. by intros [= <- _]. }
  intros [= <- _].
  apply Remove_cases in Hrm as (target & Hres & _ & -> & _).
  apply resolve_locate in Hres. rewrite locate_render in Hres by done.
  rewrite rev_app_distr, rev_involutive, lex_walk_app in Hres.
  rewrite <-(locate_render (cwd os)), <-Hclean in Hres by done.
  rewrite lex_walk_names, Hfilter in Hres by done.
  pose proof (segments_nonempty key) as Hne.
  destruct (segments key) as [|x pre _] using rev_ind; [done|].
  rewrite rev_app_distr in *. simpl in *.
  apply Forall_app in Hnames as [Hnames _]. pose proof Hseps as Hseps'.
  apply Forall_app in Hseps' as [Hseps' _].
  unfold cleanupEmptyDirectories.
  rewrite Dir_render.
  - rewrite (cleanup_steps_below b (cwd os)); [|done..].
    simpl. rewrite lookup_delete_ne; [done|].
    intros ->. subst loc.
    assert (pre ++ [x] = []) as Hnil; [|by destruct pre].
    apply (app_inv_head (locate (cwd os) (baseDir b))). rewrite app_nil_r.
    apply Hloc. by apply prefix_app_r.
  - done.
  - by destruct (names_on_clean (rooted (baseDir b)) _ pre Hnames Hseps' Hout Hset)
      as (_ & ? & _).
Qed.

(** ** A key that is free *)

Lemma walk_dirs_skipped fs skipped : ∀ loc,
  Forall (λ seg, is_skip seg = true) skipped → walk_dirs fs loc skipped = Ok loc.
Proof.
  induction skipped as [|seg skipped IH]; intros loc Hall; [done|].
  inversion_clear Hall as [|? ? Hseg Hrest]. simpl. unfold step_dir. rewrite Hseg.
  by apply IH.
Qed.

(** A path that names a directory leads through directories to the end. *)
Lemma resolve_dir_walk os path loc :
  resolve os path = Ok loc → node_at (files os) loc = Some Directory →
  ∃ loc0, start os path = Ok loc0 ∧ walk_dirs (files os) loc0 (segments path) = Ok loc.
Proof.
  unfold resolve. case_bool_decide as Hne; [done|].
  destruct (start os path) as [loc0|e] eqn:Hstart; [|done]. simpl.
  destruct (walk_dirs (files os) loc0 _) as [dir|e] eqn:Hwalk; [|done]. simpl.
  intros Hlast Hnode. exists loc0. split; [done|].
  rewrite (app_removelast_last "" (segments_nonempty path)), walk_dirs_app, Hwalk. simpl.
  revert Hlast. unfold step_last.
  destruct (_ || _) eqn:Hcase; [by intros ->|].
  apply orb_false_iff in Hcase as [Hskip Hdd]. intros [= <-].
  unfold step_dir. rewrite Hskip, Hdd. simpl. by rewrite (enter_dir _ _ Hnode).
Qed.

(** [MkdirAll] along names, none of which is a file: the directories are
    made, and nothing else changes. *)
Lemma mkdir_walk_fresh pre : ∀ fs dir,
  Forall (λ seg, is_name seg = true) pre →
  (∀ p1 x p2 data, pre = p1 ++ x :: p2 → fs !! (dir ++ p1 ++ [x]) ≠ Some (File data)) →
  ∃ fs', mkdir_walk fs dir pre = (fs', None) ∧
         walk_dirs fs' dir pre = Ok (dir ++ pre) ∧
         (∀ loc, (∀ p1 x p2, pre = p1 ++ x :: p2 → loc ≠ dir ++ p1 ++ [x]) →
                 fs' !! loc = fs !! loc).
Proof.
  induction pre as [|x pre IH]; intros fs dir Hnames Hfree.
  { exists fs. simpl. rewrite app_nil_r. done. }
  inversion_clear Hnames as [|? ? Hname Hnames'].
  unfold is_name in Hname. apply andb_true_iff in Hname as [Hskip Hdd].
  apply negb_true_iff in Hskip, Hdd.
  assert (∀ fs1, fs1 !! (dir ++ [x]) = Some Directory →
            (∀ loc, loc ≠ dir ++ [x] → fs1 !! loc = fs !! loc) →
            ∃ fs', mkdir_walk fs1 (dir ++ [x]) pre = (fs', None) ∧
                   walk_dirs fs' dir (x :: pre) = Ok (dir ++ x :: pre) ∧
                   (∀ loc, (∀ p1 y p2, x :: pre = p1 ++ y :: p2 → loc ≠ dir ++ p1 ++ [y]) →
                           fs' !! loc = fs !! loc)) as Hrest.
  { intros fs1 Hdir Hsame.
    destruct (IH fs1 (dir ++ [x]) Hnames') as (fs' & Hmk & Hwalk & Hframe).
    { intros p1 y p2 data ->. rewrite <-app_assoc. simpl.
      rewrite Hsame.
      - apply (Hfree (x :: p1) y p2 data eq_refl).
      - intros Heq. apply app_inv_head in Heq. by destruct p1. }
    exists fs'. split; [done|]. split.
    - simpl. unfold step_dir. rewrite Hskip, Hdd. unfold enter.
      rewrite node_at_snoc, Hframe, Hdir.
      + simpl. rewrite Hwalk. by rewrite <-app_assoc.
      + intros p1 y p2 _ Heq. rewrite <-app_assoc in Heq. apply app_inv_head in Heq.
        by destruct p1.
    - intros loc Hloc. rewrite Hframe.
      + apply Hsame. apply (Hloc [] x pre eq_refl).
      + intros p1 y p2 ->. rewrite <-app_assoc. simpl.
        apply (Hloc (x :: p1) y p2 eq_refl). }
  simpl. rewrite Hskip, Hdd. simpl. rewrite node_at_snoc.
  destruct (fs !! (dir ++ [x])) as [[data|]|] eqn:Hnode.
  - by destruct (Hfree [] x pre data eq_refl).
  - by apply Hrest.
  - apply Hrest; [apply lookup_insert_eq|]. intros loc Hloc. by apply lookup_insert_ne.
Qed.

Lemma start_keeps os os' path loc0 :
  keeps_dirs (files os) (files os') → cwd os' = cwd os →
  start os path = Ok loc0 → start os' path = Ok loc0.
Proof.
  intros Hk Hcwd. unfold start. rewrite Hcwd.
  destruct (rooted path); [done|]. intros [-> Hd]%enter_Ok. apply enter_dir; auto.
Qed.

(** The path ending in a name, below directories. *)
Lemma resolve_render os is_rooted x out loc0 dir :
  Forall kept (x :: out) → is_name x = true →
  start os (render is_rooted (x :: out)) = Ok loc0 →
  walk_dirs (files os) loc0 (rev out) = Ok dir →
  resolve os (render is_rooted (x :: out)) = Ok (dir ++ [x]).
Proof.
  intros Hkept Hname Hstart Hwalk.
  unfold resolve. rewrite bool_decide_false by apply render_nonempty.
  rewrite Hstart. simpl.
  destruct (segments_render is_rooted (x :: out) Hkept) as (skipped & Hskipped & -> & _).
  simpl. rewrite app_assoc, removelast_last, last_last.
  rewrite walk_dirs_app, walk_dirs_skipped by done. simpl. rewrite Hwalk. simpl.
  unfold is_name in Hname. apply andb_true_iff in Hname as [Hskip Hdd].
  apply negb_true_iff in Hskip, Hdd. unfold step_last. by rewrite Hskip, Hdd.
Qed.

(** A walk along names enters one directory after the other. *)
Lemma walk_names fs segs : ∀ loc loc',
  Forall (λ seg, is_name seg = true) segs → walk_dirs fs loc segs = Ok loc' →
  loc' = loc ++ segs ∧
  ∀ q y rest, segs = q ++ y :: rest → fs !! (loc ++ q ++ [y]) = Some Directory.
Proof.
  induction segs as [|seg segs IH]; intros loc loc' Hnames; simpl.
  { intros [= <-]. split; [by rewrite app_nil_r|]. intros q y rest Heq. by destruct q. }
  inversion_clear Hnames as [|? ? Hname Hnames'].
  unfold is_name in Hname. apply andb_true_iff in Hname as [Hskip Hdd].
  apply negb_true_iff in Hskip, Hdd.
  unfold step_dir. rewrite Hskip, Hdd.
  destruct (enter fs (loc ++ [seg])) as [loc1|e] eqn:Henter; [|done]. simpl.
  apply enter_Ok in Henter as [-> Hdir]. rewrite node_at_snoc in Hdir.
  intros Hwalk. destruct (IH _ _ Hnames' Hwalk) as [-> Hvisited].
  split; [by rewrite <-app_assoc|].
  intros q y rest Heq. destruct q as [|z q]; simpl in Heq.
  - by injection Heq as <- _.
  - injection Heq as <- ->. specialize (Hvisited q y rest eq_refl).
    by rewrite <-app_assoc in Hvisited.
Qed.

(** The prefixes of a key that are neither empty nor the key. *)
Lemma proper_prefix_snoc (pre ns : list string) (x : string) :
  pre `prefix_of` ns ++ [x] → pre ≠ [] → pre ≠ ns ++ [x] →
  ∃ q y rest, ns = q ++ y :: rest ∧ pre = q ++ [y].
Proof.
  intros [more Hmore] Hne Hproper.
  destruct pre as [|y q _] using rev_ind; [done|].
  destruct more as [|z more _] using rev_ind.
  { by rewrite app_nil_r in Hmore. }
  rewrite !app_assoc in Hmore.
  apply app_inj_tail in Hmore as [-> _]. exists q, y, more. by rewrite <-app_assoc.
Qed.

(** [Upload] to a key that is free: the directories on the way are made
    and the file is written. *)
Lemma Upload_free (b : Backend) (os : OS) (key : string) (p : list byte) :
  Stat os (baseDir b) = Ok Directory →
  Forall (λ seg, is_name seg = true) (segments key) →
  (∀ pre data, pre `prefix_of` segments key → pre ≠ [] → pre ≠ segments key →
     files os !! (locate (cwd os) (baseDir b) ++ pre) ≠ Some (File data)) →
  files os !! (locate (cwd os) (baseDir b) ++ segments key) ≠ Some Directory →
  ∃ os', Upload b os key (payload p) = (os', None) ∧
         ∀ pre, pre `prefix_of` segments key → pre ≠ [] → pre ≠ segments key →
           files os' !! (locate (cwd os) (baseDir b) ++ pre) = Some Directory.
Proof.
  intros Hstat Hnames Hfree Htarget.
  assert (baseDir b ≠ "") as Hbase.
  { intros Hnil. revert Hstat. unfold Stat, resolve. by rewrite Hnil. }
  apply Stat_Ok in Hstat as (base_loc & Hres & Hnode).
  pose proof (resolve_locate _ _ _ Hres) as Hloc. rewrite <-Hloc in *. clear Hloc.
  destruct (resolve_dir_walk _ _ _ Hres Hnode) as (loc0 & Hstart & Hwalk).
  destruct (Clean_settled (baseDir b)) as [Hout Hset].
  set (is_rooted := rooted (baseDir b)) in *.
  set (out := clean_segments is_rooted [] (segments (baseDir b))) in *.
  assert (walk_dirs (files os) loc0 (rev out) = Ok base_loc) as Hwalk'.
  { apply (clean_segments_walk _ is_rooted loc0 (segments (baseDir b)) [] loc0); try done.
    intros Hrooted. revert Hstart. unfold start. fold is_rooted. rewrite Hrooted. congruence. }
  pose proof (segments_no_sep key) as Hseps.
  pose proof (segments_nonempty key) as Hne.
  destruct (names_on_clean is_rooted out (segments key) Hnames Hseps Hout Hset)
    as (Hkept & _ & Hpush).
  assert (Join (baseDir b) key = render is_rooted (rev (segments key) ++ out)) as Hjoin.
  { exact (eq_trans (Join_render _ key Hbase) (f_equal (render is_rooted) Hpush)). }
  destruct (segments key) as [|x pre _] using rev_ind; [done|]. clear Hne.
  rewrite rev_app_distr in *. simpl in *.
  apply Forall_app in Hnames as [Hnames Hx]. inversion_clear Hx as [|? ? Hx' _].
  apply Forall_app in Hseps as [Hseps _].
  destruct (names_on_clean is_rooted out pre Hnames Hseps Hout Hset) as (Hkept' & Hset' & _).
  assert (∀ path, rooted path = is_rooted → start os path = Ok loc0) as Hstarts.
  { intros path Hrooted. revert Hstart. unfold start. fold is_rooted. by rewrite Hrooted. }
  destruct (mkdir_walk_fresh pre (files os) base_loc Hnames) as (fs' & Hmk & Hdirs & Hframe).
  { intros p1 y p2 data ->. apply (Hfree (p1 ++ [y])).
    - exists (p2 ++ [x]). by rewrite <-!app_assoc.
    - by destruct p1.
    - intros Heq. apply (f_equal length) in Heq. rewrite !length_app in Heq. simpl in Heq.
      lia. }
  assert (MkdirAll os (Dir (Join (baseDir b) key)) = (mkOS fs' (cwd os), None)) as Hmkdir.
  { rewrite Hjoin, Dir_render by done.
    unfold MkdirAll. rewrite bool_decide_false by apply render_nonempty.
    rewrite Hstarts by (by apply rooted_render).
    destruct (segments_render is_rooted (rev pre ++ out) Hkept')
      as (skipped & Hskipped & -> & _).
    rewrite rev_app_distr, rev_involutive.
    rewrite (mkdir_walk_app _ skipped _ loc0 loc0) by (by apply walk_dirs_skipped).
    rewrite (mkdir_walk_app _ (rev out) _ loc0 base_loc) by done.
    by rewrite Hmk. }
  assert (keeps_dirs (files os) fs') as Hkeeps by (by eapply mkdir_walk_keeps).
  assert (resolve (mkOS fs' (cwd os)) (Join (baseDir b) key) = Ok ((base_loc ++ pre) ++ [x]))
    as Hres'.
  { rewrite Hjoin. apply (resolve_render _ _ _ _ loc0); [done|done| |].
    - apply (start_keeps os); [done|done|]. by apply Hstarts, rooted_render.
    - simpl. rewrite rev_app_distr, rev_involutive, walk_dirs_app.
      rewrite (walk_dirs_keeps _ _ _ _ _ Hkeeps Hwalk'). simpl. done. }
  assert (node_at fs' ((base_loc ++ pre) ++ [x]) ≠ Some Directory) as Hnode'.
  { rewrite node_at_snoc, Hframe; [by rewrite <-app_assoc|].
    intros p1 y p2 -> Heq. rewrite <-!app_assoc in Heq. apply app_inv_head in Heq.
    apply (f_equal length) in Heq. rewrite !length_app in Heq. simpl in Heq. lia. }
  pose proof (Upload_at b os key (payload p) _ _ Hmkdir Hres' Hnode') as Hup.
  exists (mkOS (<[(base_loc ++ pre) ++ [x] := File p]> fs') (cwd os)).
  split; [exact Hup|].
  intros pre0 Hprefix Hne0 Hproper.
  destruct (proper_prefix_snoc _ _ _ Hprefix Hne0 Hproper) as (q & y & rest & Hpre & ->).
  destruct (walk_names _ _ _ _ Hnames Hdirs) as [_ Hvisited].
  simpl. rewrite lookup_insert_ne.
  - by apply (Hvisited q y rest).
  - rewrite Hpre. intros Heq. rewrite <-!app_assoc in Heq. apply app_inv_head in Heq.
    apply (f_equal length) in Heq. rewrite !length_app in Heq. simpl in Heq. lia.
Qed.

(** X17: a free key can be written.  When the base directory is there,
    the key is made of names and its path is one the system takes, no part
    of the key names a file, and the key itself does not name a directory,
    [Upload] succeeds, [Download] then yields the payload, and every
    directory on the way to the file is there afterwards. *)
Theorem upload_free_key (b : Backend) (os : OS) (key : string) (p : list byte) :
  Stat os (baseDir b) = Ok Directory →
  Forall (λ seg, is_name seg = true) (segments key) →
  valid_path (Join (baseDir b) key) = true →
  (∀ pre data, pre `prefix_of` segments key → pre ≠ [] → pre ≠ segments key →
     files os !! (locate (cwd os) (baseDir b) ++ pre) ≠ Some (File data)) →
  files os !! (locate (cwd os) (baseDir b) ++ segments key) ≠ Some Directory →
  ∃ os', Upload b os key (payload p) = (os', None) ∧
         Download b os' key = Ok (File p) ∧
         ∀ pre, pre `prefix_of` segments key → pre ≠ [] → pre ≠ segments key →
           files os' !! (locate (cwd os) (baseDir b) ++ pre) = Some Directory.
Proof.
  intros Hstat Hnames _ Hfree Htarget.
  destruct (Upload_free b os key p Hstat Hnames Hfree Htarget) as (os' & Hup & Hdirs).
  exists os'. split; [done|]. split; [|done].
  apply Upload_Stat in Hup. simpl in Hup. unfold Download, Open. by rewrite Hup.
Qed.

(** C2, amended: [Upload k p] returns nil when [k] holds an object
    already, and when [k] is free: the base directory is there, the key is
    made of names and its path is one the system takes, no part of the key
    names a file and the key itself does not name a directory.  Whenever
    [Upload k p] has returned nil, whatever was stored before, [Download k]
    yields a handle that reads exactly [p], nothing of the old bytes, and
    [GetObjectMeta k] reports the size [length p]. *)
Theorem upload_download_roundtrip (b : Backend) (os : OS) (k : string) (p : list byte) :
  (∀ os', Upload b os k (payload p) = (os', None) →
     (∃ file, Download b os' k = Ok file ∧ ReadAll file = Ok p) ∧
     (∃ meta, GetObjectMeta b os' k = Ok meta ∧ Size meta = Z.of_nat (length p))) ∧
  (∀ old, Download b os k = Ok (File old) →
     ∃ os', Upload b os k (payload p) = (os', None) ∧
            Download b os' k = Ok (File p) ∧
            ∃ meta, GetObjectMeta b os' k = Ok meta ∧ Size meta = Z.of_nat (length p)) ∧
  (Stat os (baseDir b) = Ok Directory →
   Forall (λ seg, is_name seg = true) (segments k) →
   valid_path (Join (baseDir b) k) = true →
   (∀ pre data, pre `prefix_of` segments k → pre ≠ [] → pre ≠ segments k →
      files os !! (locate (cwd os) (baseDir b) ++ pre) ≠ Some (File data)) →
   files os !! (locate (cwd os) (baseDir b) ++ segments k) ≠ Some Directory →
   ∃ os', Upload b os k (payload p) = (os', None) ∧
          Download b os' k = Ok (File p) ∧
          ∃ meta, GetObjectMeta b os' k = Ok meta ∧ Size meta = Z.of_nat (length p)).
Proof.
  assert (∀ os', Upload b os k (payload p) = (os', None) →
            Download b os' k = Ok (File p) ∧
            ∃ meta, GetObjectMeta b os' k = Ok meta ∧ Size meta = Z.of_nat (length p))
    as Hround.
  { intros os' Hstat%Upload_Stat. simpl in Hstat. split.
    - unfold Download, Open. by rewrite Hstat.
    - unfold GetObjectMeta. rewrite Hstat. eauto. }
  split_and!.
  - intros os' [Hdl Hmeta]%Hround. split; [|done]. by exists (File p).
  - intros old Hold.
    destruct (Upload_occupied b os k old (payload p) Hold eq_refl) as [os' Hup].
    exists os'. split; [done|]. by apply Hround.
  - intros Hstat Hnames _ Hfree Htarget.
    destruct (Upload_free b os k p Hstat Hnames Hfree Htarget) as (os' & Hup & _).
    exists os'. split; [done|]. by apply Hround.
Qed.

(** ** Directories left empty *)

(** The cleaned form of a rooted path has no [..]. *)
Lemma clean_segments_rooted segs : ∀ out,
  Forall (λ seg, is_dotdot seg = false) out →
  Forall (λ seg, is_dotdot seg = false) (clean_segments true out segs).
Proof.
  induction segs as [|seg segs IH]; intros out Hout; simpl; [done|].
  destruct (is_skip seg); [by apply IH|].
  destruct (is_dotdot seg) eqn:Hdd; [|by apply IH; constructor].
  destruct out as [|top out]; [by apply IH|].
  inversion_clear Hout as [|? ? Htop Hout']. rewrite Htop. by apply IH.
Qed.

(** Removing a node further down leaves the walk as it is. *)
Lemma walk_names_delete fs gone segs : ∀ loc loc',
  Forall (λ seg, is_name seg = true) segs → walk_dirs fs loc segs = Ok loc' →
  (length loc' < length gone)%nat → walk_dirs (delete gone fs) loc segs = Ok loc'.
Proof.
  induction segs as [|seg segs IH]; intros loc loc' Hnames; [done|].
  intros Hwalk Hlen.
  destruct (walk_names fs (seg :: segs) loc loc' Hnames Hwalk) as [-> _].
  inversion_clear Hnames as [|? ? Hname Hnames'].
  revert Hwalk. simpl.
  unfold is_name in Hname. apply andb_true_iff in Hname as [Hskip Hdd].
  apply negb_true_iff in Hskip, Hdd.
  unfold step_dir. rewrite Hskip, Hdd.
  destruct (enter fs (loc ++ [seg])) as [loc1|e] eqn:Henter; [|done]. simpl.
  apply enter_Ok in Henter as [-> Hdir]. intros Hwalk.
  rewrite (enter_dir (delete gone fs) (loc ++ [seg])).
  - simpl. by apply IH.
  - rewrite node_at_snoc in *. rewrite lookup_delete_ne; [done|].
    intros ->. rewrite !length_app in Hlen. simpl in Hlen. lia.
Qed.

Lemma entries_child fs loc (seg : string) n :
  fs !! (loc ++ [seg]) = Some n → entries fs loc ≠ [].
Proof.
  intros Hchild Hnil.
  rewrite (entries_nil fs loc (loc ++ [seg]) Hnil) in Hchild;
    [done|by destruct loc|apply parent_snoc].
Qed.

Lemma resolve_render_inv os is_rooted x out loc :
  Forall kept (x :: out) → is_name x = true →
  resolve os (render is_rooted (x :: out)) = Ok loc →
  ∃ loc0 dir, start os (render is_rooted (x :: out)) = Ok loc0 ∧
              walk_dirs (files os) loc0 (rev out) = Ok dir ∧ loc = dir ++ [x].
Proof.
  intros Hkept Hname. unfold resolve. rewrite bool_decide_false by apply render_nonempty.
  destruct (start os _) as [loc0|e]; [|done]. simpl.
  destruct (segments_render is_rooted (x :: out) Hkept) as (skipped & Hskipped & -> & _).
  simpl. rewrite app_assoc, removelast_last, last_last.
  rewrite walk_dirs_app, walk_dirs_skipped by done. simpl.
  destruct (walk_dirs (files os) loc0 (rev out)) as [dir|e] eqn:Hwalk; [|done]. simpl.
  unfold is_name in Hname. apply andb_true_iff in Hname as [Hskip Hdd].
  apply negb_true_iff in Hskip, Hdd. unfold step_last. rewrite Hskip, Hdd. simpl.
  intros [= <-]. by exists loc0, dir.
Qed.

(** The walk of [cleanupEmptyDirectories] from a directory below a rooted
    base directory in cleaned form: every directory on the way is gone or
    has an entry afterwards. *)
Lemma cleanup_steps_prunes b out pre : ∀ steps os os',
  baseDir b = render true out → Forall kept out →
  clean_segments true [] (rev out) = out →
  Forall (λ seg, is_name seg = true) (rev out) →
  Forall (λ seg, is_name seg = true) pre → Forall (λ seg, has_sep seg = false) pre →
  (size (files os) < steps)%nat →
  walk_dirs (files os) [] (rev out ++ pre) = Ok (rev out ++ pre) →
  cleanup_steps steps b os (render true (rev pre ++ out)) = os' →
  ∀ q y rest, pre = q ++ y :: rest →
    files os' !! (rev out ++ q ++ [y]) = None ∨
    entries (files os') (rev out ++ q ++ [y]) ≠ [].
Proof.
  induction pre as [|x pre IH] using rev_ind;
    intros steps os os' Hbase Hout Hset Hbnames Hnames Hseps Hsize Hwalk Hos' q y rest Hpre.
  { by destruct q. }
  apply Forall_app in Hnames as [Hnames Hx]. inversion_clear Hx as [|? ? Hx' _].
  apply Forall_app in Hseps as [Hseps Hxs]. inversion_clear Hxs as [|? ? Hxsep _].
  destruct (names_on_clean true out pre Hnames Hseps Hout Hset) as (Hkept & Hset' & _).
  assert (Forall kept (x :: rev pre ++ out)) as Hkeptx.
  { constructor; [|done]. split; [|done].
    unfold is_name in Hx'. apply andb_true_iff in Hx' as [Hs _]. by apply negb_true_iff in Hs. }
  assert (Forall (λ seg, is_name seg = true) (rev out ++ pre ++ [x])) as Hall.
  { apply Forall_app. split; [done|]. apply Forall_app. split; [done|by constructor]. }
  destruct (walk_names _ _ _ _ Hall Hwalk) as [_ Hvisited]. simpl in Hvisited.
  pose proof Hwalk as Hwalk0. rewrite app_assoc, walk_dirs_app in Hwalk0.
  destruct (walk_dirs (files os) [] (rev out ++ pre)) as [dir|e] eqn:Hdir; [|done].
  assert (dir = rev out ++ pre) as ->.
  { eapply (walk_names _ _ [] dir); [|done]. apply Forall_app. by split. }
  clear Hwalk0.
  assert (files os !! ((rev out ++ pre) ++ [x]) = Some Directory) as Hnode.
  { apply (Hvisited (rev out ++ pre) x []). by rewrite <-app_assoc. }
  assert (render true (x :: rev pre ++ out) ≠ baseDir b) as Hnotbase.
  { rewrite Hbase. intros Heq. apply (f_equal (locate [])) in Heq.
    rewrite !locate_render in Heq by done. simpl in Heq.
    rewrite rev_app_distr, rev_involutive in Heq.
    rewrite <-app_assoc, <-(walk_dirs_lex _ _ _ _ Hwalk) in Heq.
    rewrite app_assoc, walk_dirs_app in Hwalk.
    rewrite walk_dirs_app in Hdir.
    destruct (walk_dirs (files os) [] (rev out)) as [base_loc|e] eqn:Hb; [|done].
    pose proof (walk_names _ _ _ _ Hbnames Hb) as [-> _].
    rewrite <-(walk_dirs_lex _ _ _ _ Hb) in Heq. simpl in Heq. discriminate_list. }
  assert (resolve os (render true (x :: rev pre ++ out)) = Ok ((rev out ++ pre) ++ [x]))
    as Hres.
  { apply (resolve_render _ _ _ _ []); [done|done| |].
    - unfold start. by rewrite rooted_render.
    - by rewrite rev_app_distr, rev_involutive. }
  destruct steps as [|steps]; [lia|].
  revert Hos'.
  replace (rev (pre ++ [x]) ++ out) with (x :: rev pre ++ out) by (by rewrite rev_app_distr).
  cbn [cleanup_steps]. rewrite bool_decide_false by done.
  unfold ReadDir. rewrite Hres, node_at_snoc, Hnode.
  destruct (entries (files os) ((rev out ++ pre) ++ [x])) as [|entry others] eqn:Hentries.
  - rewrite (Dir_render true x (rev pre ++ out)) by done.
    unfold Remove. rewrite Hres.
    destruct (segments_render true (x :: rev pre ++ out) Hkeptx) as (skipped & _ & -> & _).
    cbn [rev]. rewrite app_assoc, last_last.
    unfold is_name in Hx'. apply andb_true_iff in Hx' as [Hskip Hdd].
    apply negb_true_iff in Hskip, Hdd. rewrite Hskip, Hdd.
    rewrite node_at_snoc, Hnode, Hentries.
    intros Hos'.
    destruct rest as [|z rest _] using rev_ind.
    + apply app_inj_tail in Hpre as [-> ->]. left.
      pose proof (cleanup_steps_pruned steps b
                    (mkOS (delete ((rev out ++ q) ++ [y]) (files os)) (cwd os))
                    (render true (rev q ++ out))) as Hpruned.
      rewrite Hos' in Hpruned. apply pruned_only_removes in Hpruned.
      specialize (Hpruned ((rev out ++ q) ++ [y])).
      rewrite !node_at_snoc in Hpruned. simpl in Hpruned.
      rewrite lookup_delete_eq in Hpruned. rewrite <-app_assoc in Hpruned.
      by destruct Hpruned.
    + rewrite app_comm_cons, app_assoc in Hpre. apply app_inj_tail in Hpre as [-> ->].
      refine (IH steps _ os' Hbase Hout Hset Hbnames Hnames Hseps _ _ Hos' q y rest eq_refl).
      * simpl. rewrite map_size_delete, Hnode.
        assert (size (files os) ≠ 0%nat) by (by eapply map_size_ne_0_lookup_2). lia.
      * simpl. apply walk_names_delete; [by apply Forall_app|done|].
        rewrite !length_app. simpl. lia.
  - intros <-. right.
    destruct rest as [|z rest].
    + apply app_inj_tail in Hpre as [-> ->]. rewrite app_assoc, Hentries. done.
    + apply (entries_child _ _ z Directory).
      apply (Hvisited (rev out ++ q ++ [y]) z rest).
      rewrite Hpre, <-!app_assoc. done.
Qed.

(** X18: below a rooted base directory in cleaned form [Delete] leaves no
    directory empty on the way to the object.  For a key made of names,
    after a successful [Delete] every directory between the base
    directory and the object is either gone or still has an entry. *)
Theorem delete_leaves_no_empty_directory (b : Backend) (os os' : OS) (key : string)
    (pre : list string) :
  rooted (baseDir b) = true → Clean (baseDir b) = baseDir b →
  Forall (λ seg, is_name seg = true) (segments key) →
  Delete b os key = (os', None) →
  pre `prefix_of` segments key → pre ≠ [] → pre ≠ segments key →
  files os' !! (locate (cwd os) (baseDir b) ++ pre) = None ∨
  entries (files os') (locate (cwd os) (baseDir b) ++ pre) ≠ [].
Proof.
  intros Hrooted Hclean Hnames Hdel Hprefix Hne Hproper.
  assert (baseDir b ≠ "") as Hnil by (by intros Heq; rewrite Heq in Hrooted).
  destruct (Clean_settled (baseDir b)) as [Hout Hset].
  rewrite Clean_render in Hclean. rewrite Hrooted in Hclean, Hout, Hset.
  pose proof (Join_render (baseDir b) key Hnil) as Hjoin. rewrite Hrooted in Hjoin.
  set (out := clean_segments true [] (segments (baseDir b))) in *.
  assert (Forall (λ seg, is_name seg = true) (rev out)) as Hbnames.
  { apply Forall_rev.
    pose proof (clean_segments_rooted (segments (baseDir b)) [] (Forall_nil_2 _)) as Hdd.
    fold out in Hdd. clear -Hout Hdd. induction Hout as [|seg segs [Hskip _] _ IH].
    - constructor.
    - inversion_clear Hdd as [|? ? Hseg Hsegs]. constructor; [|by apply IH].
      unfold is_name. by rewrite Hskip, Hseg. }
  assert (locate (cwd os) (baseDir b) = rev out) as ->.
  { rewrite <-Hclean, locate_render by done.
    assert (Forall (λ seg, has_sep seg = false) (rev out)) as Hseps.
    { apply Forall_rev. eapply Forall_impl; [exact Hout|]. by intros seg [_ ?]. }
    destruct (is_name_kept _ Hbnames Hseps) as (_ & Hdd & Hfilter).
    by rewrite lex_walk_names, Hfilter. }
  pose proof (segments_no_sep key) as Hseps.
  pose proof (segments_nonempty key) as Hsome.
  destruct (names_on_clean true out (segments key) Hnames Hseps Hout Hset)
    as (Hkept & _ & Hpush).
  rewrite Hpush in Hjoin.
  destruct (segments key) as [|x ns _] using rev_ind; [done|]. clear Hsome.
  rewrite rev_app_distr in Hjoin, Hkept. cbn [rev app] in Hjoin, Hkept.
  apply Forall_app in Hnames as [Hnames Hx]. inversion_clear Hx as [|? ? Hx' _].
  apply Forall_app in Hseps as [Hseps _].
  destruct (names_on_clean true out ns Hnames Hseps Hout Hset) as (Hkept' & Hset' & _).
  assert (∃ q y rest, ns = q ++ y :: rest ∧ pre = q ++ [y]) as (q & y & rest & -> & ->).
  { destruct Hprefix as [more Hmore].
    destruct pre as [|y q _] using rev_ind; [done|].
    destruct more as [|z more _] using rev_ind.
    { by rewrite app_nil_r in Hmore. }
    rewrite !app_assoc in Hmore.
    apply app_inj_tail in Hmore as [-> _]. exists q, y, more. by rewrite <-app_assoc. }
  revert Hdel. unfold Delete, cleanupEmptyDirectories. rewrite Hjoin, Dir_render by done.
  destruct (match Stat os _ with Ok _ => false | Err err => IsNotExist err end); [done|].
  destruct (Remove os _) as [os1 [e|]] eqn:Hrm; [done|]. intros Hdel.
  assert (cleanup_steps (S (size (files os1))) b os1
            (render true (rev (q ++ y :: rest) ++ out)) = os') as Hos' by congruence.
  clear Hdel.
  apply Remove_cases in Hrm as (loc & Hres & _ & Hos1 & _).
  apply resolve_render_inv in Hres as (loc0 & dir & Hstart & Hwalk & Hloc); [|done..].
  assert (loc0 = []) as ->.
  { revert Hstart. unfold start. rewrite rooted_render by done. congruence. }
  rewrite rev_app_distr, rev_involutive in Hwalk.
  assert (Forall (λ seg, is_name seg = true) (rev out ++ q ++ y :: rest)) as Hall
    by (by apply Forall_app).
  destruct (walk_names _ _ _ _ Hall Hwalk) as [Hdir _]. rewrite app_nil_l in Hdir.
  subst dir loc.
  apply (cleanup_steps_prunes b out (q ++ y :: rest) (S (size (files os1))) os1 os'
           (eq_sym Hclean) Hout Hset Hbnames Hnames Hseps) with (rest := rest);
    [lia| |done|done].
  rewrite Hos1. apply walk_names_delete; [done|done|]. rewrite !length_app. cbn [length]. lia.
Qed.

End Backend.

(** ** Examples *)

(** [Clean], [Dir] and [Join] on the tables of the tests of path/filepath. *)
Example Clean_table :
  Forall (λ row : string * string, Clean row.1 = row.2)
    [("abc", "abc");
     ("abc/def", "abc/def");
     ("a/b/c", "a/b/c");
     (".", ".");
     ("..", "..");
     ("../..", "../..");
     ("../../abc", "../../abc");
     ("/abc", "/abc");
     ("/", "/");
     ("", ".");
     ("abc/", "abc");
     ("abc/def/", "abc/def");
     ("a/b/c/", "a/b/c");
     ("./", ".");
     ("../", "..");
     ("../../", "../..");
     ("/abc/", "/abc");
     ("abc//def//ghi", "abc/def/ghi");
     ("//abc", "/abc");
     ("///abc", "/abc");
     ("//abc//", "/abc");
     ("abc//", "abc");
     ("abc/./def", "abc/def");
     ("/./abc/def", "/abc/def");
     ("abc/.", "abc");
     ("abc/def/ghi/../jkl", "abc/def/jkl");
     ("abc/def/../ghi/../jkl", "abc/jkl");
     ("abc/def/..", "abc");
     ("abc/def/../..", ".");
     ("/abc/def/../..", "/");
     ("abc/def/../../..", "..");
     ("/abc/def/../../..", "/");
     ("abc/def/../../../ghi/jkl/../../../mno", "../../mno");
     ("/../abc", "/abc");
     ("abc/./../def", "def");
     ("abc//./../def", "def");
     ("abc/../../././../def", "../../def")].
Proof. repeat constructor. Qed.

Example Dir_table :
  Forall (λ row : string * string, Dir row.1 = row.2)
    [("", ".");
     (".", ".");
     ("/.", "/");
     ("/", "/");
     ("/foo", "/");
     ("x/", "x");
     ("abc", ".");
     ("abc/def", "abc");
     ("a/b/.x", "a/b");
     ("a/b/c.", "a/b");
     ("a/b/c.x", "a/b")].
Proof. repeat constructor. Qed.

Example Join_table :
  Forall (λ row : string * string * string, Join row.1.1 row.1.2 = row.2)
    [("a", "b", "a/b");
     ("a", "", "a");
     ("", "b", "b");
     ("/", "a", "/a");
     ("/", "a/b", "/a/b");
     ("/", "", "/");
     ("/a", "b", "/a/b");
     ("a", "/b", "a/b");
     ("a/", "b", "a/b");
     ("a/", "", "a");
     ("", "", "")].
Proof. repeat constructor. Qed.

(** [Upload] over an object that is already there, then [Download]. *)
Lemma upload_download_roundtrip_witness :
  Download store_backend occupied_os "a/b/c" = Ok (File ["o"; "l"; "d"]%byte) ∧
  Upload store_backend occupied_os "a/b/c" (payload ["n"; "e"; "w"; "e"; "r"]%byte)
    = (overwritten_os, None) ∧
  ((∃ file, Download store_backend overwritten_os "a/b/c" = Ok file ∧
            ReadAll file = Ok ["n"; "e"; "w"; "e"; "r"]%byte) ∧
   (∃ meta, GetObjectMeta sample_sniff 4096 store_backend overwritten_os "a/b/c" = Ok meta ∧
            Size meta = Z.of_nat (length ["n"; "e"; "w"; "e"; "r"]%byte))) ∧
  (∃ os', Upload store_backend occupied_os "a/b/c" (payload ["n"; "e"; "w"; "e"; "r"]%byte)
            = (os', None) ∧
          Download store_backend os' "a/b/c" = Ok (File ["n"; "e"; "w"; "e"; "r"]%byte) ∧
          ∃ meta, GetObjectMeta sample_sniff 4096 store_backend os' "a/b/c" = Ok meta ∧
                  Size meta = Z.of_nat (length ["n"; "e"; "w"; "e"; "r"]%byte)) ∧
  Stat srv_os (baseDir store_backend) = Ok Directory ∧
  valid_path (Join (baseDir store_backend) "a/b/c") = true ∧
  files srv_os !! (locate (cwd srv_os) (baseDir store_backend) ++ segments "a/b/c") = None ∧
  (∃ os', Upload store_backend srv_os "a/b/c" (payload ["o"; "l"; "d"]%byte) = (os', None) ∧
          Download store_backend os' "a/b/c" = Ok (File ["o"; "l"; "d"]%byte) ∧
          ∃ meta, GetObjectMeta sample_sniff 4096 store_backend os' "a/b/c" = Ok meta ∧
                  Size meta = Z.of_nat (length ["o"; "l"; "d"]%byte)).
Proof.
  assert (Download store_backend occupied_os "a/b/c" = Ok (File ["o"; "l"; "d"]%byte))
    as Hold by (vm_compute; reflexivity).
  assert (Upload store_backend occupied_os "a/b/c" (payload ["n"; "e"; "w"; "e"; "r"]%byte)
          = (overwritten_os, None)) as Hup by (vm_compute; reflexivity).
  assert (Stat srv_os (baseDir store_backend) = Ok Directory) as Hstat
    by (vm_compute; reflexivity).
  assert (valid_path (Join (baseDir store_backend) "a/b/c") = true) as Hvalid
    by (vm_compute; reflexivity).
  assert (files srv_os !! (locate (cwd srv_os) (baseDir store_backend) ++ segments "a/b/c")
          = None) as Hnone by (vm_compute; reflexivity).
  destruct (upload_download_roundtrip sample_sniff 4096 store_backend occupied_os "a/b/c"
              ["n"; "e"; "w"; "e"; "r"]%byte) as (Hround & Hover & _).
  destruct (upload_download_roundtrip sample_sniff 4096 store_backend srv_os "a/b/c"
              ["o"; "l"; "d"]%byte) as (_ & _ & Hfree).
  split; [exact Hold|]. split; [exact Hup|].
  split; [exact (Hround _ Hup)|]. split; [exact (Hover _ Hold)|].
  split; [exact Hstat|]. split; [exact Hvalid|]. split; [exact Hnone|].
  apply (Hfree Hstat); [repeat constructor|exact Hvalid| |rewrite Hnone; discriminate].
  intros pre data [rest Hrest] Hne Hfull.
  change (segments "a/b/c") with ["a"; "b"; "c"] in *.
  destruct pre as [|s1 [|s2 [|s3 pre]]]; [done| | |].
  - injection Hrest as <- _. vm_compute. discriminate.
  - injection Hrest as <- <- _. vm_compute. discriminate.
  - injection Hrest as <- <- <- Hnil. destruct pre; [done|discriminate].
Defined.

(** C2, counterexample: the empty key names the base directory, and the
    key a/b a directory in it.  [Upload] returns an error for both and
    writes nothing, and [Download] yields the directory, which does not
    read as the payload. *)
Lemma upload_to_directory_no_roundtrip :
  Upload store_backend srv_os "" (payload ["x"]%byte)
    = (srv_os, Some (fmt_Errorf "failed to create file" (PathError EISDIR))) ∧
  Download store_backend srv_os "" = Ok Directory ∧
  Upload store_backend occupied_os "a/b" (payload ["x"]%byte)
    = (occupied_os, Some (fmt_Errorf "failed to create file" (PathError EISDIR))) ∧
  Download store_backend occupied_os "a/b" = Ok Directory ∧
  ReadAll Directory = Err (PathError EISDIR) ∧
  ¬ (∃ file, Download store_backend (Upload store_backend srv_os "" (payload ["x"]%byte)).1 ""
             = Ok file ∧ ReadAll file = Ok ["x"]%byte).
Proof.
  split_and!; try (vm_compute; reflexivity).
  intros (file & Hdl & Hread).
  assert (Download store_backend (Upload store_backend srv_os "" (payload ["x"]%byte)).1 ""
          = Ok Directory) as Hdir by (vm_compute; reflexivity).
  rewrite Hdir in Hdl. injection Hdl as <-. discriminate.
Defined.

Lemma delete_then_not_found_witness :
  Delete store_backend occupied_os "a/b/c" = (srv_os, None) ∧
  Download store_backend srv_os "a/b/c" = Err (errors_New "object not found") ∧
  GetObjectMeta sample_sniff 4096 store_backend srv_os "a/b/c"
    = Err (errors_New "object not found").
Proof.
  assert (Delete store_backend occupied_os "a/b/c" = (srv_os, None)) as Hdel
    by (vm_compute; reflexivity).
  split; [exact Hdel|].
  exact (delete_then_not_found sample_sniff 4096 _ _ _ _ Hdel).
Defined.

(** C1, counterexample: on the base directory /srv/store the key
    ../secret is accepted by all four operations, and the file they write,
    read and remove is /srv/secret, outside the base directory. *)
Lemma traversal_leaves_base :
  locate (cwd srv_os) (baseDir store_backend) = ["srv"; "store"] ∧
  Upload store_backend srv_os "../secret" (payload ["h"; "i"]%byte) = (escaped_os, None) ∧
  files escaped_os !! ["srv"; "secret"] = Some (File ["h"; "i"]%byte) ∧
  ¬ (["srv"; "store"] `prefix_of` ["srv"; "secret"]) ∧
  files srv_os !! ["srv"; "secret"] = None ∧
  Download store_backend escaped_os "../secret" = Ok (File ["h"; "i"]%byte) ∧
  (∃ meta, GetObjectMeta sample_sniff 4096 store_backend escaped_os "../secret" = Ok meta ∧
           Size meta = 2) ∧
  Delete store_backend escaped_os "../secret" = (srv_os, None).
Proof.
  split_and!; try (vm_compute; reflexivity).
  - by intros [rest [=]].
  - eexists. split; vm_compute; reflexivity.
Defined.

Lemma key_stays_below_base_witness :
  baseDir store_backend ≠ "" ∧ (".." ∉ segments "a/b/c") ∧
  locate (cwd occupied_os) (baseDir store_backend) ++ names "a/b/c"
    = ["srv"; "store"; "a"; "b"; "c"] ∧
  Download store_backend occupied_os "a/b/c" = Ok (File ["o"; "l"; "d"]%byte) ∧
  node_at (files occupied_os) (locate (cwd occupied_os) (baseDir store_backend) ++ names "a/b/c")
    = Some (File ["o"; "l"; "d"]%byte).
Proof.
  assert (baseDir store_backend ≠ "") as Hbase by done.
  assert (".." ∉ segments "a/b/c") as Hdd.
  { apply (bool_decide_unpack (".." ∉ segments "a/b/c")). vm_compute. exact I. }
  assert (Download store_backend occupied_os "a/b/c" = Ok (File ["o"; "l"; "d"]%byte)) as Hdl
    by (vm_compute; reflexivity).
  split_and!; [done|done|vm_compute; reflexivity|done|].
  destruct (key_stays_below_base sample_sniff 4096 store_backend occupied_os "a/b/c" Hbase)
    as [_ Hbelow].
  destruct (Hbelow Hdd) as (_ & Hread & _).
  exact (Hread _ Hdl).
Defined.

(** C4: with the base directory configured as /tmp/store/ (a trailing
    separator), uploading a/b/c and deleting it again removes the base
    directory itself: the text of the directory, /tmp/store, is compared
    with the text of the configuration and differs from it. *)
Theorem delete_removes_unclean_base :
  New slash_config tmp_os = (tmp_store_os, Ok slash_backend) ∧
  Upload slash_backend tmp_store_os "a/b/c" (payload ["x"]%byte) = (tmp_store_abc_os, None) ∧
  Stat tmp_store_abc_os (baseDir slash_backend) = Ok Directory ∧
  Delete slash_backend tmp_store_abc_os "a/b/c" = (tmp_os, None) ∧
  Stat tmp_os (baseDir slash_backend) = Err (PathError ENOENT).
Proof. split_and!; vm_compute; reflexivity. Qed.

(** With the base directory written /tmp/store the same steps leave it in
    place, and a directory that still holds an object stays. *)
Example delete_keeps_clean_base :
  Delete clean_backend tmp_store_abc_os "a/b/c" = (tmp_store_os, None).
Proof. vm_compute; reflexivity. Qed.

Example delete_keeps_sibling :
  Upload clean_backend tmp_store_abc_os "a/b/d" (payload ["y"]%byte)
    = (tmp_store_abcd_os, None) ∧
  Delete clean_backend tmp_store_abcd_os "a/b/c" = (tmp_store_abd_os, None) ∧
  Download clean_backend tmp_store_abd_os "a/b/d" = Ok (File ["y"]%byte).
Proof. split_and!; vm_compute; reflexivity. Qed.

(** A relative base directory written ./store has the same fate as one
    with a trailing separator. *)
Example delete_removes_relative_base :
  Delete (mkBackend "./store" "" None Hour) (mkOS (files tmp_store_abc_os) ["tmp"]) "a/b/c"
    = (mkOS (files tmp_os) ["tmp"], None).
Proof. vm_compute; reflexivity. Qed.

Lemma open_mode_accepts_all_witness :
  SignatureSecretKey open_config = "" ∧
  New open_config srv_os = (srv_os, Ok open_backend) ∧
  signer open_backend = None ∧
  ValidateUploadSignature sample_hmac open_backend 0 "" "" 0 = None.
Proof.
  assert (New open_config srv_os = (srv_os, Ok open_backend)) as Hnew
    by (vm_compute; reflexivity).
  destruct (open_mode_accepts_all sample_hmac open_config srv_os srv_os open_backend
              eq_refl Hnew) as [Hsigner Hvalid].
  split_and!; [done|done|done|apply Hvalid].
Defined.

Lemma GetUploadURL_shape_witness :
  urlPrefix signed_backend ≠ "" ∧
  New signed_config srv_os = (srv_os, Ok signed_backend) ∧
  GetUploadURL sample_hmac signed_backend (100 * Second) "reports/q1.pdf"
    = ("http://files.example/upload/reports/q1.pdf?signature="
         +:+ sample_hmac "s3cr3t" "PUT" "/upload/reports/q1.pdf" 105
         +:+ "&expires=105", None) ∧
  urlPrefix open_backend ≠ "" ∧ signer open_backend = None ∧
  GetUploadURL sample_hmac open_backend (100 * Second) "reports/q1.pdf"
    = ("http://files.example/upload/reports/q1.pdf", None).
Proof.
  assert (urlPrefix signed_backend ≠ "") as Hprefix by done.
  assert (urlPrefix open_backend ≠ "") as Hprefix' by done.
  destruct (GetUploadURL_shape sample_hmac signed_backend (100 * Second) "reports/q1.pdf"
              Hprefix) as [Hsigned _].
  destruct (Hsigned _ eq_refl) as (_ & Hform & Hsome & _).
  destruct Hsome as [url Hurl]; [vm_compute; reflexivity|vm_compute; reflexivity|].
  destruct (GetUploadURL_shape sample_hmac open_backend (100 * Second) "reports/q1.pdf"
              Hprefix') as [_ Hplain].
  split_and!; [done|vm_compute; reflexivity| |done|done|exact (Hplain eq_refl)].
  rewrite Hurl. rewrite (Hform _ Hurl). vm_compute. reflexivity.
Defined.

Lemma no_prefix_no_url_witness :
  urlPrefix store_backend = "" ∧
  GetUploadURL sample_hmac store_backend 0 "a/b/c"
    = ("", Some (errors_New "direct upload required for filesystem backend")) ∧
  GetDownloadURL store_backend "a/b/c" "c.txt"
    = ("", Some (errors_New "direct download required for filesystem backend")) ∧
  GetPreviewURL store_backend "a/b/c"
    = ("", Some (errors_New "direct preview required for filesystem backend")).
Proof.
  split; [done|]. exact (no_prefix_no_url sample_hmac store_backend 0 "a/b/c" "c.txt" eq_refl).
Defined.

Lemma New_outcomes_witness :
  (BaseDir (mkConfig "" "" "" 0) = "" ∧
   New (mkConfig "" "" "" 0) tmp_os = (tmp_os, Err (errors_New "base directory is required"))) ∧
  (BaseDir (mkConfig "/tmp/keep/store" "" "" 0) ≠ "" ∧
   MkdirAll tmp_os "/tmp/keep/store" = (tmp_os, Some (PathError ENOTDIR)) ∧
   New (mkConfig "/tmp/keep/store" "" "" 0) tmp_os
     = (tmp_os, Err (fmt_Errorf "failed to create base directory" (PathError ENOTDIR)))) ∧
  (BaseDir slash_config ≠ "" ∧
   MkdirAll tmp_os (BaseDir slash_config) = (tmp_store_os, None) ∧
   PresignExpires slash_config = 0 ∧
   ∃ b, New slash_config tmp_os = (tmp_store_os, Ok b) ∧
        Stat tmp_store_os (baseDir b) = Ok Directory ∧ presignExpires b = Hour) ∧
  (PresignExpires signed_config ≠ 0 ∧
   ∃ b, New signed_config srv_os = (srv_os, Ok b) ∧ presignExpires b = 5 * Second).
Proof.
  assert (BaseDir slash_config ≠ "") as Hbase by done.
  assert (MkdirAll tmp_os (BaseDir slash_config) = (tmp_store_os, None)) as Hmk
    by (vm_compute; reflexivity).
  assert (MkdirAll tmp_os "/tmp/keep/store" = (tmp_os, Some (PathError ENOTDIR))) as Hfail
    by (vm_compute; reflexivity).
  assert (MkdirAll srv_os (BaseDir signed_config) = (srv_os, None)) as Hmk'
    by (vm_compute; reflexivity).
  assert (PresignExpires signed_config ≠ 0) as Hset by (vm_compute; discriminate).
  assert (New (mkConfig "" "" "" 0) tmp_os
          = (tmp_os, Err (errors_New "base directory is required"))) as Hnew1.
  { destruct (New_outcomes (mkConfig "" "" "" 0) tmp_os) as (Hempty & _). by apply Hempty. }
  assert (New (mkConfig "/tmp/keep/store" "" "" 0) tmp_os
          = (tmp_os, Err (fmt_Errorf "failed to create base directory" (PathError ENOTDIR))))
    as Hnew2.
  { destruct (New_outcomes (mkConfig "/tmp/keep/store" "" "" 0) tmp_os) as (_ & Herr & _).
    by apply Herr. }
  assert (∃ b, New slash_config tmp_os = (tmp_store_os, Ok b) ∧
               Stat tmp_store_os (baseDir b) = Ok Directory ∧ presignExpires b = Hour)
    as Hnew3.
  { destruct (New_outcomes slash_config tmp_os) as (_ & _ & Hok).
    destruct (Hok _ Hbase Hmk) as (b & Hnew & _ & Hstat & Hhour & _).
    exists b. split; [done|]. split; [done|]. by apply Hhour. }
  assert (∃ b, New signed_config srv_os = (srv_os, Ok b) ∧ presignExpires b = 5 * Second)
    as Hnew4.
  { destruct (New_outcomes signed_config srv_os) as (_ & _ & Hok).
    destruct (Hok srv_os) as (b & Hnew & _ & _ & _ & Hkeep); [done|done|].
    exists b. split; [done|]. by apply Hkeep. }
  split; [split; [done|exact Hnew1]|].
  split; [split; [done|]; split; [exact Hfail|exact Hnew2]|].
  split; [split; [done|]; split; [exact Hmk|]; split; [done|exact Hnew3]|].
  split; [exact Hset|exact Hnew4].
Defined.

(** C6, counterexample: a URL prefix and a signer are both configured,
    and [GetUploadURL] returns no URL but the signer's error: the
    configured expiration is negative, and [New] keeps it. *)
Lemma signed_upload_url_refused :
  (∃ s, signer negative_backend = Some s) ∧
  urlPrefix negative_backend = "http://files.example" ∧
  New negative_config srv_os = (srv_os, Ok negative_backend) ∧
  GetUploadURL sample_hmac negative_backend (100 * Second) "reports/q1.pdf"
    = ("", Some ErrInvalidExpiration) ∧
  ¬ (∃ signature expires,
       GetUploadURL sample_hmac negative_backend (100 * Second) "reports/q1.pdf"
       = ("http://files.example/upload/reports/q1.pdf?signature=" +:+ signature
            +:+ "&expires=" +:+ expires, None)).
Proof.
  split_and!; [by eexists|done|vm_compute; reflexivity|done|].
  intros (signature & expires & Hurl). discriminate Hurl.
Defined.

(** C10, counterexample: a backend built from a configuration with a URL
    prefix, a secret key and a negative expiration; its signer refuses to
    sign, and [GetUploadURL] fails for every key. *)
Lemma upload_url_fails_with_prefix :
  New negative_config srv_os = (srv_os, Ok negative_backend) ∧
  urlPrefix negative_backend ≠ "" ∧
  ∀ (now : Z) (objectKey : string),
    GetUploadURL sample_hmac negative_backend now objectKey = ("", Some ErrInvalidExpiration).
Proof. split_and!; [vm_compute; reflexivity|done|done]. Defined.

Lemma url_issuance_witness :
  urlPrefix signed_backend ≠ "" ∧
  (GetDownloadURL signed_backend "no/such/object" "").2 = None ∧
  (GetPreviewURL signed_backend "no/such/object").2 = None ∧
  (GetUploadURL sample_hmac signed_backend 0 "no/such/object").2 = None ∧
  urlPrefix open_backend ≠ "" ∧ signer open_backend = None ∧
  (GetUploadURL sample_hmac open_backend 0 "no/such/object").2 = None.
Proof.
  assert (urlPrefix signed_backend ≠ "") as Hprefix by done.
  assert (urlPrefix open_backend ≠ "") as Hprefix' by done.
  destruct (url_issuance sample_hmac signed_backend 0 "no/such/object" "" Hprefix)
    as (Hdl & Hpv & _ & Hsigned & _).
  destruct (Hsigned _ eq_refl) as [_ Hup].
  destruct (url_issuance sample_hmac open_backend 0 "no/such/object" "" Hprefix')
    as (_ & _ & Hplain & _).
  split_and!; [done|done|done| |done|done|exact (Hplain eq_refl)].
  apply Hup; vm_compute; reflexivity.
Defined.

(** ** Examples for the further properties *)

Lemma not_found_together_witness :
  Download store_backend srv_os "a/b/c" = Err (errors_New "object not found") ∧
  GetObjectMeta sample_sniff 4096 store_backend srv_os "a/b/c"
    = Err (errors_New "object not found") ∧
  Delete store_backend srv_os "a/b/c" = (srv_os, Some (errors_New "object not found")).
Proof.
  assert (Download store_backend srv_os "a/b/c" = Err (errors_New "object not found"))
    as Hdl by (vm_compute; reflexivity).
  destruct (not_found_together sample_sniff 4096 store_backend srv_os "a/b/c")
    as (Hmeta & Hdel & _).
  split; [exact Hdl|]. split; [by apply Hmeta|by apply Hdel].
Defined.

Lemma delete_error_changes_nothing_witness :
  (Delete store_backend occupied_os "a").2
    = Some (fmt_Errorf "failed to delete file" (PathError ENOTEMPTY)) ∧
  (Delete store_backend occupied_os "a").1 = occupied_os.
Proof.
  split; [vm_compute; reflexivity|].
  apply (delete_error_changes_nothing store_backend occupied_os _ "a"
           (fmt_Errorf "failed to delete file" (PathError ENOTEMPTY))).
  vm_compute. reflexivity.
Defined.

Lemma delete_keeps_other_files_witness :
  Delete clean_backend tmp_store_abcd_os "a/b/c" = (tmp_store_abd_os, None) ∧
  files tmp_store_abcd_os !! ["tmp"; "store"; "a"; "b"; "d"] = Some (File ["y"]%byte) ∧
  files tmp_store_abd_os !! ["tmp"; "store"; "a"; "b"; "d"] = Some (File ["y"]%byte).
Proof.
  assert (Delete clean_backend tmp_store_abcd_os "a/b/c" = (tmp_store_abd_os, None)) as Hdel
    by (vm_compute; reflexivity).
  assert (files tmp_store_abcd_os !! ["tmp"; "store"; "a"; "b"; "d"] = Some (File ["y"]%byte))
    as Hfile by (vm_compute; reflexivity).
  split; [exact Hdel|]. split; [exact Hfile|].
  apply (delete_keeps_other_files clean_backend tmp_store_abcd_os _ "a/b/c" None _ _ Hdel);
    [|exact Hfile].
  vm_compute. discriminate.
Defined.

Lemma delete_keeps_used_directories_witness :
  Delete clean_backend tmp_store_abcd_os "a/b/c" = (tmp_store_abd_os, None) ∧
  files tmp_store_abd_os !! parent ["tmp"; "store"; "a"; "b"; "d"] = Some Directory.
Proof.
  assert (Delete clean_backend tmp_store_abcd_os "a/b/c" = (tmp_store_abd_os, None)) as Hdel
    by (vm_compute; reflexivity).
  split; [exact Hdel|].
  apply (delete_keeps_used_directories clean_backend tmp_store_abcd_os _ "a/b/c" None _ Hdel).
  - discriminate.
  - exists (File ["y"]%byte). vm_compute. reflexivity.
  - vm_compute. reflexivity.
Defined.

Lemma upload_changes_one_file_witness :
  Upload store_backend occupied_os "x/y" (payload ["p"; "1"]%byte)
    = ((Upload store_backend occupied_os "x/y" (payload ["p"; "1"]%byte)).1, None) ∧
  (files (Upload store_backend occupied_os "x/y" (payload ["p"; "1"]%byte)).1
     !! ["srv"; "store"; "a"; "b"; "c"]
   = files occupied_os !! ["srv"; "store"; "a"; "b"; "c"] ∨
   (files occupied_os !! ["srv"; "store"; "a"; "b"; "c"] = None ∧
    files (Upload store_backend occupied_os "x/y" (payload ["p"; "1"]%byte)).1
      !! ["srv"; "store"; "a"; "b"; "c"] = Some Directory)).
Proof.
  assert (Upload store_backend occupied_os "x/y" (payload ["p"; "1"]%byte)
          = ((Upload store_backend occupied_os "x/y" (payload ["p"; "1"]%byte)).1, None))
    as Hup by (vm_compute; reflexivity).
  split; [exact Hup|].
  apply (upload_changes_one_file store_backend occupied_os _ "x/y" _ None _ Hup).
  vm_compute. discriminate.
Defined.

Lemma upload_failed_read_overwrites_witness :
  Download store_backend occupied_os "a/b/c" = Ok (File ["o"; "l"; "d"]%byte) ∧
  r_err broken_reader = Some (ReadError "broken pipe") ∧
  ∃ os', Upload store_backend occupied_os "a/b/c" broken_reader
           = (os', Some (fmt_Errorf "failed to write file" (ReadError "broken pipe"))) ∧
         Download store_backend os' "a/b/c" = Ok (File (r_data broken_reader)).
Proof.
  assert (Download store_backend occupied_os "a/b/c" = Ok (File ["o"; "l"; "d"]%byte))
    as Hold by (vm_compute; reflexivity).
  split; [exact Hold|]. split; [reflexivity|].
  apply (upload_failed_read_overwrites store_backend occupied_os "a/b/c" _ broken_reader _
           Hold eq_refl).
  discriminate.
Defined.

Lemma upload_last_write_wins_witness :
  Upload store_backend srv_os "x/y" (payload ["p"; "1"]%byte) = (xy_os, None) ∧
  (∃ os2, Upload store_backend xy_os "x/y" (payload ["p"; "2"]%byte) = (os2, None) ∧
          Upload store_backend srv_os "x/y" (payload ["p"; "2"]%byte) = (os2, None)) ∧
  Upload store_backend xy_os "x/y" (payload ["p"; "1"]%byte) = (xy_os, None).
Proof.
  assert (Upload store_backend srv_os "x/y" (payload ["p"; "1"]%byte) = (xy_os, None))
    as Hup by (vm_compute; reflexivity).
  split; [exact Hup|].
  exact (upload_last_write_wins store_backend srv_os xy_os "x/y" _ ["p"; "2"]%byte Hup).
Defined.

Lemma upload_then_delete_witness :
  Upload store_backend srv_os "x/y" (payload ["p"; "1"]%byte) = (xy_os, None) ∧
  ∃ os2, Delete store_backend xy_os "x/y" = (os2, None) ∧
         Download store_backend os2 "x/y" = Err (errors_New "object not found").
Proof.
  assert (Upload store_backend srv_os "x/y" (payload ["p"; "1"]%byte) = (xy_os, None))
    as Hup by (vm_compute; reflexivity).
  split; [exact Hup|].
  exact (upload_then_delete store_backend srv_os xy_os "x/y" _ Hup).
Defined.

Lemma upload_to_directory_fails_witness :
  Download store_backend srv_os "" = Ok Directory ∧
  Upload store_backend srv_os "" (payload ["p"; "1"]%byte)
    = (srv_os, Some (fmt_Errorf "failed to create file" (PathError EISDIR))).
Proof.
  assert (Download store_backend srv_os "" = Ok Directory) as Hdir
    by (vm_compute; reflexivity).
  split; [exact Hdir|].
  exact (upload_to_directory_fails store_backend srv_os "" _ Hdir).
Defined.


Lemma New_makes_directories_only_witness :
  New slash_config tmp_os = (tmp_store_os, Ok slash_backend) ∧
  (files tmp_store_os !! ["tmp"; "keep"] = files tmp_os !! ["tmp"; "keep"] ∨
   (files tmp_os !! ["tmp"; "keep"] = None ∧
    files tmp_store_os !! ["tmp"; "keep"] = Some Directory)) ∧
  New slash_config tmp_store_os = (tmp_store_os, Ok slash_backend).
Proof.
  assert (New slash_config tmp_os = (tmp_store_os, Ok slash_backend)) as Hnew
    by (vm_compute; reflexivity).
  destruct (New_makes_directories_only slash_config tmp_os _ _ Hnew) as (Hadds & _ & Hagain).
  split; [exact Hnew|]. split; [apply Hadds|by apply Hagain].
Defined.

Lemma signer_iff_secret_key_witness :
  New signed_config srv_os = (srv_os, Ok signed_backend) ∧
  SignatureSecretKey signed_config ≠ "" ∧
  IsSignedURLEnabled signed_backend = true ∧
  New open_config srv_os = (srv_os, Ok open_backend) ∧
  SignatureSecretKey open_config = "" ∧
  GetSigner open_backend = None.
Proof.
  assert (New signed_config srv_os = (srv_os, Ok signed_backend)) as Hsigned
    by (vm_compute; reflexivity).
  assert (New open_config srv_os = (srv_os, Ok open_backend)) as Hopen
    by (vm_compute; reflexivity).
  destruct (signer_iff_secret_key signed_config srv_os _ _ Hsigned) as (_ & Henabled & _).
  destruct (signer_iff_secret_key open_config srv_os _ _ Hopen) as (Hnone & _).
  split_and!; [exact Hsigned|done|by apply Henabled|exact Hopen|done|by apply Hnone].
Defined.

Lemma upload_url_validates_witness :
  signer signed_backend = Some (mkSigner "s3cr3t" (5 * Second) "/upload/{key}") ∧
  GetUploadURL sample_hmac signed_backend (100 * Second) "reports/q1.pdf"
    = ("http://files.example/upload/reports/q1.pdf?signature="
         +:+ sample_hmac "s3cr3t" "PUT" "/upload/reports/q1.pdf" 105
         +:+ "&expires=105", None) ∧
  ValidateUploadSignature sample_hmac signed_backend (103 * Second) "reports/q1.pdf"
    (sample_hmac "s3cr3t" "PUT" "/upload/reports/q1.pdf" 105) 105 = None ∧
  ValidateUploadSignature sample_hmac signed_backend (106 * Second) "reports/q1.pdf"
    (sample_hmac "s3cr3t" "PUT" "/upload/reports/q1.pdf" 105) 105 = Some ErrExpired.
Proof.
  destruct (upload_url_validates sample_hmac signed_backend
              (mkSigner "s3cr3t" (5 * Second) "/upload/{key}")
              (100 * Second) (103 * Second) "reports/q1.pdf")
    as (Hurl & Hvalid & _); [reflexivity|done|reflexivity|vm_compute; reflexivity|].
  destruct (upload_url_validates sample_hmac signed_backend
              (mkSigner "s3cr3t" (5 * Second) "/upload/{key}")
              (100 * Second) (106 * Second) "reports/q1.pdf")
    as (_ & _ & Hexpired & _); [reflexivity|done|reflexivity|vm_compute; reflexivity|].
  split; [reflexivity|]. split; [rewrite Hurl; vm_compute; reflexivity|]. split.
  - rewrite <-Hvalid by (vm_compute; discriminate). vm_compute. reflexivity.
  - rewrite <-(Hexpired ltac:(vm_compute; reflexivity)
                 (sample_hmac "s3cr3t" "PUT" "/upload/reports/q1.pdf" 105)).
    vm_compute. reflexivity.
Defined.

Lemma keys_with_same_names_witness :
  names "a/b/c" = names "./a//b/c/" ∧
  Join (baseDir store_backend) "a/b/c" = Join (baseDir store_backend) "./a//b/c/" ∧
  Download store_backend occupied_os "./a//b/c/" = Ok (File ["o"; "l"; "d"]%byte).
Proof.
  assert (names "a/b/c" = names "./a//b/c/") as Hnames by (vm_compute; reflexivity).
  destruct (keys_with_same_names store_backend occupied_os "a/b/c" "./a//b/c/")
    as (Hjoin & Hdl & _); [done| | |exact Hnames|].
  - apply (bool_decide_unpack (".." ∉ segments "a/b/c")). vm_compute. exact I.
  - apply (bool_decide_unpack (".." ∉ segments "./a//b/c/")). vm_compute. exact I.
  - split; [exact Hnames|]. split; [exact Hjoin|]. rewrite <-Hdl. vm_compute. reflexivity.
Defined.

Lemma key_below_object_witness :
  Download store_backend occupied_os "a/b/c" = Ok (File ["o"; "l"; "d"]%byte) ∧
  valid_path (Join (baseDir store_backend) ("a/b/c" +:+ "/" +:+ "d")) = true ∧
  Download store_backend occupied_os ("a/b/c" +:+ "/" +:+ "d")
    = Err (fmt_Errorf "failed to open file" (PathError ENOTDIR)) ∧
  Delete store_backend occupied_os ("a/b/c" +:+ "/" +:+ "d")
    = (occupied_os, Some (fmt_Errorf "failed to delete file" (PathError ENOTDIR))).
Proof.
  assert (Download store_backend occupied_os "a/b/c" = Ok (File ["o"; "l"; "d"]%byte))
    as Hold by (vm_compute; reflexivity).
  assert (valid_path (Join (baseDir store_backend) ("a/b/c" +:+ "/" +:+ "d")) = true)
    as Hvalid by (vm_compute; reflexivity).
  destruct (key_below_object sample_sniff 4096 store_backend occupied_os "a/b/c" "d" _ Hold)
    as (Hdl & _ & _ & Hdel); [reflexivity|reflexivity|exact Hvalid|].
  split; [exact Hold|]. split; [exact Hvalid|]. split; [exact Hdl|exact Hdel].
Defined.

Lemma delete_stays_below_clean_base_witness :
  Clean (baseDir clean_backend) = baseDir clean_backend ∧
  Delete clean_backend tmp_store_abc_os "a/b/c" = (tmp_store_os, None) ∧
  locate (cwd tmp_store_abc_os) (baseDir clean_backend) = ["tmp"; "store"] ∧
  files tmp_store_os !! ["tmp"; "store"] = files tmp_store_abc_os !! ["tmp"; "store"].
Proof.
  assert (Clean (baseDir clean_backend) = baseDir clean_backend) as Hclean
    by (vm_compute; reflexivity).
  assert (Delete clean_backend tmp_store_abc_os "a/b/c" = (tmp_store_os, None)) as Hdel
    by (vm_compute; reflexivity).
  split; [exact Hclean|]. split; [exact Hdel|]. split; [vm_compute; reflexivity|].
  apply (delete_stays_below_clean_base clean_backend tmp_store_abc_os _ "a/b/c" None _
           Hclean); [|exact Hdel|].
  - repeat constructor.
  - intros _. vm_compute. reflexivity.
Defined.

Lemma upload_free_key_witness :
  Stat xy_os (baseDir store_backend) = Ok Directory ∧
  valid_path (Join (baseDir store_backend) "x/z/w") = true ∧
  files xy_os !! (locate (cwd xy_os) (baseDir store_backend) ++ segments "x/z/w") = None ∧
  files xy_os !! (locate (cwd xy_os) (baseDir store_backend) ++ ["x"; "z"]) = None ∧
  ∃ os', Upload store_backend xy_os "x/z/w" (payload ["n"]%byte) = (os', None) ∧
         Download store_backend os' "x/z/w" = Ok (File ["n"]%byte) ∧
         files os' !! (locate (cwd xy_os) (baseDir store_backend) ++ ["x"; "z"])
         = Some Directory.
Proof.
  assert (Stat xy_os (baseDir store_backend) = Ok Directory) as Hstat
    by (vm_compute; reflexivity).
  assert (valid_path (Join (baseDir store_backend) "x/z/w") = true) as Hvalid
    by (vm_compute; reflexivity).
  assert (files xy_os !! (locate (cwd xy_os) (baseDir store_backend) ++ segments "x/z/w")
          = None) as Hnone by (vm_compute; reflexivity).
  split; [exact Hstat|]. split; [exact Hvalid|]. split; [exact Hnone|].
  split; [vm_compute; reflexivity|].
  destruct (upload_free_key store_backend xy_os "x/z/w" ["n"]%byte Hstat)
    as (os' & Hup & Hdl & Hdirs).
  - repeat constructor.
  - exact Hvalid.
  - intros pre data [rest Hrest] Hne Hfull.
    change (segments "x/z/w") with ["x"; "z"; "w"] in *.
    destruct pre as [|s1 [|s2 [|s3 pre]]]; [done| | |].
    + injection Hrest as <- _. vm_compute. discriminate.
    + injection Hrest as <- <- _. vm_compute. discriminate.
    + injection Hrest as <- <- <- Hnil. destruct pre; [done|discriminate].
  - rewrite Hnone. discriminate.
  - exists os'. split; [exact Hup|]. split; [exact Hdl|].
    apply Hdirs; [by exists ["w"]|discriminate|vm_compute; discriminate].
Defined.

Lemma delete_leaves_no_empty_directory_witness :
  Clean (baseDir clean_backend) = baseDir clean_backend ∧
  Delete clean_backend tmp_store_abc_os "a/b/c" = (tmp_store_os, None) ∧
  (files tmp_store_os
     !! (locate (cwd tmp_store_abc_os) (baseDir clean_backend) ++ ["a"; "b"]) = None ∨
   entries (files tmp_store_os)
     (locate (cwd tmp_store_abc_os) (baseDir clean_backend) ++ ["a"; "b"]) ≠ []).
Proof.
  assert (Clean (baseDir clean_backend) = baseDir clean_backend) as Hclean
    by (vm_compute; reflexivity).
  assert (Delete clean_backend tmp_store_abc_os "a/b/c" = (tmp_store_os, None)) as Hdel
    by (vm_compute; reflexivity).
  split; [exact Hclean|]. split; [exact Hdel|].
  apply (delete_leaves_no_empty_directory clean_backend tmp_store_abc_os tmp_store_os
           "a/b/c" ["a"; "b"] eq_refl Hclean); [|exact Hdel| | |].
  - repeat constructor.
  - exists ["c"]. vm_compute. reflexivity.
  - discriminate.
  - vm_compute. discriminate.
Defined.
